(** * Flask-Security: access guards and token views

    A shallow embedding of [flask_security/decorators.py] and of the token
    views of [flask_security/views.py], together with the properties of the
    guard layer that the specification states about them.

    Python code that raises is embedded in an exception-and-state monad
    ([Eff]); the state of the decorators is the trace of observable events of
    one request, the state of the views adds the session and the datastore. *)

From stdpp Require Import base option list strings gmap pretty.
From Stdlib Require Import ZArith Lia.

Local Open Scope Z_scope.
Local Open Scope string_scope.

(** ** Python values, exceptions and effects *)

Module Py.

(** The exceptions that can occur in the embedded code. *)
Inductive exn : Type :=
| AttributeError                (* attribute access on an object lacking it *)
| UserNotFoundError             (* datastore: no such user *)
| DatastoreError                (* datastore: backend failure *)
| ValueError                    (* password context: malformed hash *)
| TypeError                     (* an argument of the wrong type *)
| HTTPException (code : Z).     (* werkzeug: [abort(code)] *)

Inductive result (A : Type) : Type :=
| Ok (a : A)
| Exc (e : exn).
Arguments Ok {A} a.
Arguments Exc {A} e.

(** A computation over a state [S] that returns or raises. *)
Definition Eff (S A : Type) : Type := S -> result A * S.

Section Eff.
Context {S : Type}.

Definition ret {A} (a : A) : Eff S A := fun s => (Ok a, s).

Definition raise {A} (e : exn) : Eff S A := fun s => (Exc e, s).

Definition bind {A B} (k : A -> Eff S B) (m : Eff S A) : Eff S B :=
  fun s => match m s with
           | (Ok a, s') => k a s'
           | (Exc e, s') => (Exc e, s')
           end.

(** [try: m  except: h] with a bare [except]: every exception is caught. *)
Definition try_except {A} (m : Eff S A) (h : Eff S A) : Eff S A :=
  fun s => match m s with
           | (Ok a, s') => (Ok a, s')
           | (Exc _, s') => h s'
           end.

(** Lift a pure call that returns or raises. *)
Definition lift {A} (r : result A) : Eff S A := fun s => (r, s).

Definition get : Eff S S := fun s => (Ok s, s).
Definition modify (f : S -> S) : Eff S unit := fun s => (Ok tt, f s).
End Eff.

(** Truthiness of an optional string: [None] and [''] are falsy. *)
Definition truthy (o : option string) : bool :=
  match o with
  | Some s => negb (String.eqb s "")
  | None => false
  end.

(** [a or b] where [a] is an optional string and [b] a string. *)
Definition or_else (a : option string) (b : string) : string :=
  match a with
  | Some s => if truthy a then s else b
  | None => b
  end.

(** [a or b] where both may be [None]. *)
Definition or_opt (a b : option string) : option string :=
  if truthy a then a else b.

(** [d.get(key, default)] on a dict of strings where the default may be
    [None]. *)
Definition dict_get (d : gmap string string) (key : string)
    (default : option string) : option string :=
  match d !! key with
  | Some v => Some v
  | None => default
  end.

End Py.

Import Py.

(** [x ← m; k] and [m;; k] sequence two computations; an exception raised by
    the first skips the second. *)
#[global] Instance eff_ret {S} : MRet (Eff S) := @ret S.
#[global] Instance eff_bind {S} : MBind (Eff S) := @bind S.


(** ** The data the guards read *)

(** A role of the datastore; only its name is consulted. *)
Record Role : Type := { name : string }.

(** A user record of the datastore. References to users are their ids. *)
Record User : Type := {
  id : nat;
  email : string;
  password : string;                      (* the stored password hash *)
  authentication_token : option string;
  roles : list Role;
  confirmed_at : option Z;
}.

(** [request.authorization] of an HTTP Basic request. *)
Record Authorization : Type := {
  username : string;
  auth_password : string;
}.

(** The part of the Flask request the guards read. *)
Record Request : Type := {
  headers : gmap string string;
  args : gmap string string;
  authorization : option Authorization;
  url : string;
  referrer : option string;
}.

(** The keyword argument given to [datastore.find_user]. *)
Inductive Query : Type :=
| ByAuthenticationToken (token : option string)
| ByEmail (address : string)
| ById (uid : nat).

(** A redirect target: a path and its query parameters. *)
Record Url : Type := {
  path : string;
  query : list (string * string);
}.

Definition plain (p : string) : Url := {| path := p; query := [] |}.

(** A response: status code, headers, body. *)
Record Response : Type := {
  status : Z;
  response_headers : list (string * string);
  body : string;
  location : option Url;                  (* the target of a redirect *)
}.

(** [flask.Response(body, status, headers)]. *)
Definition mkResponse (b : string) (code : Z) (hs : list (string * string))
    : Response :=
  {| status := code; response_headers := hs; body := b; location := None |}.

(** [flask.redirect(location)]: a 302 response to [location]. *)
Definition redirect (target : Url) : Response :=
  {| status := 302; response_headers := []; body := "";
     location := Some target |}.

(** *** Flask-Principal *)

(** [Need = namedtuple('Need', ['method', 'value'])]. *)
Definition Need : Type := string * string.

(** [RoleNeed = partial(Need, 'role')]. *)
Definition RoleNeed (role : string) : Need := ("role", role).

(** A permission: the needs it asks for and the needs it excludes. *)
Record Permission : Type := {
  needs : gset Need;
  excludes : gset Need;
}.

(** [Permission] applied to a list of needs: no excluded need. *)
Definition mkPermission (ns : list Need) : Permission :=
  {| needs := list_to_set ns; excludes := ∅ |}.

(** Modelled from the spec: [Permission.allows] belongs to Flask-Principal,
    which is not among the sources.  A permission with needs is allowed when
    the identity provides at least one of them (the any-of reading of section
    4.3); a permission without needs allows every identity; an excluded need
    that is provided denies. *)
Definition allows (p : Permission) (provided : gset Need) : bool :=
  if bool_decide (needs p ≠ ∅ ∧ needs p ∩ provided = ∅) then false
  else if bool_decide (excludes p ≠ ∅ ∧ excludes p ∩ provided ≠ ∅) then false
  else true.

(** *** The application and the request context *)

(** [app.security]: the configuration the guards read, and the two external
    capabilities, each of which returns or raises. *)
Record Security : Type := {
  token_authentication_header : string;
  token_authentication_key : string;
  login_view : string;                    (* login_manager.login_view *)
  find_user : Query -> result User;       (* datastore.find_user *)
  verify : string -> string -> result bool;   (* pwd_context.verify *)
}.

(** What is in scope while a guard runs: the application, the request, the
    session's user ([None] for the anonymous user) and the needs the
    Principal identity of the request provides. *)
Record Context : Type := {
  security : Security;
  request : Request;
  current_user : option User;
  provides : gset Need;
}.

Definition is_authenticated (c : Context) : bool :=
  match current_user c with Some _ => true | None => false end.

(** The roles an identity holds: the role needs it provides. *)
Definition holds (c : Context) (role : string) : Prop :=
  RoleNeed role ∈ provides c.

#[global] Instance holds_dec (c : Context) (role : string)
  : Decision (holds c role).
Proof. unfold holds. apply _. Defined.

(** *** Observable events of one request *)

Inductive event : Type :=
| FindUser (q : Query)                    (* datastore.find_user was called *)
| Verify (plaintext hash : string)        (* pwd_context.verify was called *)
| Can (p : Permission)                    (* perm.can() was evaluated *)
| LogDebug (fmt : string) (params : list (list string))
| Flash (message category : string)       (* utils.do_flash *)
| Invoke.                                 (* the wrapped view was called *)

Definition trace : Type := list event.

Definition emit (e : event) : Eff trace unit := modify (fun t => (t ++ [e])%list).

(** A wrapped view function that answers [r]; calling it is observable. *)
Definition view (r : Response) : Eff trace Response :=
  emit Invoke;; mret r.

(** Run a guard for one request, from the empty trace. *)
Definition run {A} (m : Eff trace A) : result A * trace := m [].

(** ** [flask_security/decorators.py] *)

Module Decorators.

(** The double-quote character. *)
Definition dquote : string := String (Ascii.ascii_of_nat 34) EmptyString.

Definition _default_http_auth_msg : string :=
  "
    <h1>Unauthorized</h1>
    <p>The server could not verify that you are authorized to access the URL
    requested. You either supplied the wrong credentials (e.g. a bad password),
    or your browser doesn't understand how to supply the credentials required.</p>
    <p>In case you are allowed to request the document, please check your
    user-id and password and try again.</p>
    ".

(** [app.security.datastore.find_user(...)]: the call is recorded, then it
    returns the user or raises. *)
Definition datastore_find_user (c : Context) (q : Query) : Eff trace User :=
  emit (FindUser q);; lift (find_user (security c) q).

(** [app.security.pwd_context.verify(plaintext, hash)]. *)
Definition pwd_context_verify (c : Context) (plaintext hash : string)
    : Eff trace bool :=
  emit (Verify plaintext hash);; lift (verify (security c) plaintext hash).

(** [perm.can()]: whether the identity of the request is allowed. *)
Definition can (c : Context) (perm : Permission) : Eff trace bool :=
  emit (Can perm);; mret (allows perm (provides c)).

(** The token comes from the query argument, with the header's value as the
    default of the lookup; any exception of the lookup is a refusal. *)
Definition _check_token (c : Context) : Eff trace bool :=
  let header_key := token_authentication_header (security c) in
  let args_key := token_authentication_key (security c) in
  let header_token := dict_get (headers (request c)) header_key None in
  let token := dict_get (args (request c)) args_key header_token in
  try_except
    (datastore_find_user c (ByAuthenticationToken token);; mret true)
    (mret false).

(** The value of [request.authorization or dict(username=None,
    password=None)]: the request's authorization, or a plain dict. *)
Inductive auth_value : Type :=
| AuthObject (a : Authorization)
| AuthDict (d : gmap string (option string)).

Definition authorization_or_dict (r : Request) : auth_value :=
  match authorization r with
  | Some a => AuthObject a
  | None => AuthDict {[ "username" := None; "password" := None ]}
  end.

(** [auth.username] and [auth.password]: a dict has keys, not attributes. *)
Definition attr_username (a : auth_value) : result string :=
  match a with
  | AuthObject o => Ok (username o)
  | AuthDict _ => Exc AttributeError
  end.

Definition attr_password (a : auth_value) : result string :=
  match a with
  | AuthObject o => Ok (auth_password o)
  | AuthDict _ => Exc AttributeError
  end.

(** The attribute access [auth.username] is evaluated inside the [try], so
    its exception is caught like those of the lookup; [verify] is called
    outside of it. *)
Definition _check_http_auth (c : Context) : Eff trace bool :=
  let auth := authorization_or_dict (request c) in
  found ← try_except
             (address ← lift (attr_username auth);
              user ← datastore_find_user c (ByEmail address);
              mret (Some user))
             (mret None);
  match found with
  | None => mret false
  | Some user =>
      plaintext ← lift (attr_password auth);
      pwd_context_verify c plaintext (password user)
  end.

Definition http_auth_headers : list (string * string) :=
  [("WWW-Authenticate", "Basic realm=" ++ dquote ++ "Login Required" ++ dquote)].

Definition http_auth_required (fn : Eff trace Response) (c : Context)
    : Eff trace Response :=
  ok ← _check_http_auth c;
  if (ok : bool) then fn
  else mret (mkResponse _default_http_auth_msg 401 http_auth_headers).

Definition auth_token_required (fn : Eff trace Response) (c : Context)
    : Eff trace Response :=
  ok ← _check_token c;
  if (ok : bool) then fn else raise (HTTPException 401).

(** Modelled from the spec: [login_url] belongs to Flask-Login, which is not
    among the sources.  The login view's URL with a [next] query parameter
    that carries the URL given as return path (section 6). *)
Definition login_url (login_view next_url : string) : Url :=
  {| path := login_view; query := [("next", next_url)] |}.

(** [Permission(RoleNeed(role))]. *)
Definition role_permission (role : string) : Permission :=
  mkPermission [RoleNeed role].

(** Where a denied request is sent: [request.referrer or '/']. *)
Definition denial_target (c : Context) : Url :=
  plain (or_else (referrer (request c)) "/").

(** The [for perm in perms] loop of [roles_required]: [Some] response when
    the loop returns from the function, [None] when it runs to its end. *)
Fixpoint for_perms (c : Context) (role_names : list string)
    (perms : list Permission) : Eff trace (option Response) :=
  match perms with
  | [] => mret None
  | perm :: rest =>
      ok ← can c perm;
      if negb ok then
        emit (LogDebug "Identity does not provide the roles: %s"
                       [role_names]);;
        mret (Some (redirect (denial_target c)))
      else for_perms c role_names rest
  end.

Definition roles_required (role_names : list string)
    (fn : Eff trace Response) (c : Context) : Eff trace Response :=
  let perms := role_permission <$> role_names in
  if negb (is_authenticated c) then
    let view_name := login_view (security c) in
    mret (redirect (login_url view_name (url (request c))))
  else
    returned ← for_perms c role_names perms;
    match returned with
    | Some response => mret response
    | None => fn
    end.

(** [[r.name for r in current_user.roles]]. *)
Definition current_user_role_names (c : Context) : list string :=
  match current_user c with
  | Some u => name <$> roles u
  | None => []
  end.

Definition roles_accepted (role_names : list string)
    (fn : Eff trace Response) (c : Context) : Eff trace Response :=
  let perm := mkPermission (RoleNeed <$> role_names) in
  if negb (is_authenticated c) then
    let view_name := login_view (security c) in
    mret (redirect (login_url view_name (url (request c))))
  else
    ok ← can c perm;
    if (ok : bool) then fn
    else
      let r1 := role_names in
      let r2 := current_user_role_names c in
      emit (LogDebug
              "Current user does not provide a required role. Accepted: %s Provided: %s"
              [r1; r2]);;
      emit (Flash "You do not have permission to view this resource" "error");;
      mret (redirect (denial_target c)).


(** The ways a request to an HTTP Basic route fails to authenticate: it
    carries no credentials, the datastore knows no such user, the datastore
    fails with any exception, or the password does not verify against the
    stored hash, be it that the password context answers [False] or that it
    rejects the hash by raising. *)
Inductive auth_failure (c : Context) : Prop :=
| missing_credentials :
    authorization (request c) = None -> auth_failure c
| unknown_identity (a : Authorization) :
    authorization (request c) = Some a ->
    find_user (security c) (ByEmail (username a)) = Exc UserNotFoundError ->
    auth_failure c
| datastore_error (a : Authorization) (e : exn) :
    authorization (request c) = Some a ->
    find_user (security c) (ByEmail (username a)) = Exc e ->
    auth_failure c
| hash_mismatch (a : Authorization) (u : User) :
    authorization (request c) = Some a ->
    find_user (security c) (ByEmail (username a)) = Ok u ->
    verify (security c) (auth_password a) (password u) = Ok false ->
    auth_failure c
| hash_rejected (a : Authorization) (u : User) (e : exn) :
    authorization (request c) = Some a ->
    find_user (security c) (ByEmail (username a)) = Ok u ->
    verify (security c) (auth_password a) (password u) = Exc e ->
    auth_failure c.

(** The answer to a request that failed HTTP Basic authentication. *)
Definition unauthorized : Response :=
  mkResponse _default_http_auth_msg 401 http_auth_headers.

(** The trace of the permission checks of [roles_required] for the given
    roles, in order. *)
Definition checks (role_names : list string) : trace :=
  (fun role => Can (role_permission role)) <$> role_names.

End Decorators.

(** ** [flask_security/views.py]: the token views *)

(** The bodies of [token_login], [confirm_email] and [reset_password].  The
    decorator [anonymous_user_required] that wraps the first and the last is
    not among the sources; the views are embedded as they run once the
    decorator lets the request through. *)

Module Views.

(** The flow a signed token was issued for. *)
Inductive purpose : Type := Login | Confirm | Reset.

#[global] Instance purpose_eq_dec : EqDecision purpose.
Proof. solve_decision. Defined.

(** What a view leaves behind, in order. *)
Inductive action : Type :=
| FlashNext (key : string) (kwargs : list (string * string))
| SendLoginInstructions (uid : nat)
| SendConfirmationInstructions (uid : nat)
| SendResetPasswordInstructions (uid : nat)
| LogoutUser
| LoginUser (uid : nat)
| ConfirmUser (uid : nat)
| UpdatePassword (uid : nat) (new_password : string).

(** A function registered with [after_this_request]. *)
Inductive callback : Type := _commit.

(** The request-scoped state the views change: the datastore's users by id,
    the session's user, the actions so far and the registered callbacks. *)
Record World : Type := {
  users : gmap nat User;
  session : option nat;
  actions : list action;
  callbacks : list callback;
}.

(** [_security] and the helpers of the request that the views read. *)
Record Env : Type := {
  decode : string -> option (nat * purpose * Z);  (* the token codec *)
  ttl : purpose -> Z;
  now : Z;
  url_for : string -> string;
  get_url : option string -> option string;
  confirm_error_view : option string;
  post_confirm_view : option string;
  post_login_view : option string;
  post_reset_view : option string;
  get_post_login_redirect : string;
  login_within : string;
  confirm_email_within : string;
  reset_password_within : string;
  validate_on_submit : bool;                      (* of the current form *)
  form_password : string;
  current_template : string;
}.

Definition act (a : action) : Eff World unit :=
  modify (fun w => {| users := users w; session := session w;
                      actions := (actions w ++ [a])%list;
                      callbacks := callbacks w |}).

Definition after_this_request (f : callback) : Eff World unit :=
  modify (fun w => {| users := users w; session := session w;
                      actions := actions w;
                      callbacks := (callbacks w ++ [f])%list |}).

Definition set_session (s : option nat) : Eff World unit :=
  modify (fun w => {| users := users w; session := s;
                      actions := actions w; callbacks := callbacks w |}).

Definition put (u : User) : Eff World unit :=
  modify (fun w => {| users := <[id u := u]> (users w); session := session w;
                      actions := actions w; callbacks := callbacks w |}).

Definition flash_next (key : string) (kwargs : list (string * string))
    : Eff World unit :=
  act (FlashNext key kwargs).

(** Modelled from the spec: the token status functions live in
    [confirmable.py], [passwordless.py] and [recoverable.py], which are not
    among the sources.  Steps 1 to 3 of [evaluate] in section 4.2, as the
    triple [(expired, invalid, user)] the views unpack: a token that does
    not decode, was issued for another purpose or names no user is invalid;
    one older than the time-to-live is expired.  Whether the identity is
    already confirmed is not looked at here. *)
Definition token_status (e : Env) (p : purpose) (token : string) (w : World)
    : bool * bool * option User :=
  match decode e token with
  | None => (false, true, None)
  | Some (uid, p', issued_at) =>
      if bool_decide (p' = p) then
        match users w !! uid with
        | None => (false, true, None)
        | Some u =>
            if bool_decide (now e - issued_at > ttl e p)
            then (true, false, Some u)
            else (false, false, Some u)
        end
      else (false, true, None)
  end.

Definition login_token_status (e : Env) (token : string)
    : Eff World (bool * bool * option User) :=
  w ← get; mret (token_status e Login token w).

Definition confirm_email_token_status (e : Env) (token : string)
    : Eff World (bool * bool * option User) :=
  w ← get; mret (token_status e Confirm token w).

Definition reset_password_token_status (e : Env) (token : string)
    : Eff World (bool * bool * option User) :=
  w ← get; mret (token_status e Reset token w).

(** [user.email] and [user.id] where [user] may be [None]. *)
Definition attr {A} (f : User -> A) (user : option User) : Eff World A :=
  match user with
  | Some u => mret (f u)
  | None => raise AttributeError
  end.

(** The senders issue a fresh token for the user and mail it. *)
Definition send_login_instructions (user : option User) : Eff World unit :=
  uid ← attr id user; act (SendLoginInstructions uid).

Definition send_confirmation_instructions (user : option User)
    : Eff World unit :=
  uid ← attr id user; act (SendConfirmationInstructions uid).

Definition send_reset_password_instructions (user : option User)
    : Eff World unit :=
  uid ← attr id user; act (SendResetPasswordInstructions uid).

(** Modelled from the spec: [login_user] and [logout_user] live in
    [utils.py], which is not among the sources.  The session capability of
    section 6: [login] makes the identity the current one, [logout] leaves
    the session anonymous. *)
Definition login_user (user : option User) : Eff World unit :=
  uid ← attr id user; act (LoginUser uid);; set_session (Some uid).

Definition logout_user : Eff World unit :=
  act LogoutUser;; set_session None.

(** Modelled from the spec: [confirm_user] lives in [confirmable.py], which
    is not among the sources.  Consumption is observable through the
    confirmed-at field (section 3): an identity whose field is set is left
    as it is and the answer is [False]; otherwise the field is set to the
    current time, the identity is put to the datastore and the answer is
    [True]. *)
Definition confirm_user (e : Env) (user : option User) : Eff World bool :=
  uid ← attr id user;
  stamp ← attr confirmed_at user;
  act (ConfirmUser uid);;
  match stamp, user with
  | None, Some u =>
      put {| id := id u; email := email u; password := password u;
             authentication_token := authentication_token u;
             roles := roles u; confirmed_at := Some (now e) |};;
      mret true
  | _, _ => mret false
  end.

Definition update_password (user : option User) (new_password : string)
    : Eff World unit :=
  uid ← attr id user; act (UpdatePassword uid new_password).

(** [redirect(target)] where [target] may have evaluated to [None]. *)
Definition redirect_to (target : option string) : Eff World Response :=
  match target with
  | Some t => mret (redirect (plain t))
  | None => raise TypeError
  end.

Definition render_template (template : string) : Response :=
  mkResponse template 200 [].

(** [user != current_user]: users are compared as datastore rows. *)
Definition differs (user : option User) (w : World) : bool :=
  match user with
  | Some u => negb (bool_decide (session w = Some (id u)))
  | None => bool_decide (session w ≠ None)
  end.

Definition when (b : bool) (m : Eff World unit) : Eff World unit :=
  if b then m else mret tt.

Definition token_login (e : Env) (token : string) : Eff World Response :=
  '(expired, invalid, user) ← login_token_status e token;
  when invalid (flash_next "INVALID_LOGIN_TOKEN" []);;
  when expired
    (send_login_instructions user;;
     address ← attr email user;
     flash_next "LOGIN_EXPIRED"
                [("email", address); ("within", login_within e)]);;
  if invalid || expired then
    mret (redirect (plain (url_for e "login")))
  else
    login_user user;;
    after_this_request _commit;;
    flash_next "PASSWORDLESS_LOGIN_SUCCESSFUL" [];;
    mret (redirect (plain (get_post_login_redirect e))).

Definition confirm_email (e : Env) (token : string) : Eff World Response :=
  '(expired, invalid, user) ← confirm_email_token_status e token;
  let invalid' := negb (bool_decide (is_Some user)) || invalid in
  when invalid' (flash_next "INVALID_CONFIRMATION_TOKEN" []);;
  when expired
    (send_confirmation_instructions user;;
     address ← attr email user;
     flash_next "CONFIRMATION_EXPIRED"
                [("email", address); ("within", confirm_email_within e)]);;
  if invalid' || expired then
    redirect_to (or_opt (get_url e (confirm_error_view e))
                        (Some (url_for e "send_confirmation")))
  else
    w ← get;
    when (differs user w) (logout_user;; login_user user);;
    confirmed ← confirm_user e user;
    msg ← (if (confirmed : bool)
           then after_this_request _commit;; mret "EMAIL_CONFIRMED"
           else mret "ALREADY_CONFIRMED");
    flash_next msg [];;
    redirect_to (or_opt (get_url e (post_confirm_view e))
                        (get_url e (post_login_view e))).

Definition reset_password (e : Env) (token : string) : Eff World Response :=
  '(expired, invalid, user) ← reset_password_token_status e token;
  when invalid (flash_next "INVALID_RESET_PASSWORD_TOKEN" []);;
  when expired
    (address ← attr email user;
     flash_next "PASSWORD_RESET_EXPIRED"
                [("email", address); ("within", reset_password_within e)]);;
  if invalid || expired then
    mret (redirect (plain (url_for e "forgot_password")))
  else if validate_on_submit e then
    after_this_request _commit;;
    update_password user (form_password e);;
    flash_next "PASSWORD_RESET" [];;
    login_user user;;
    redirect_to (or_opt (get_url e (post_reset_view e))
                        (get_url e (post_login_view e)))
  else mret (render_template (current_template e)).

End Views.

(** ** Concrete users, applications and requests *)

Module Examples.
Import Decorators.

Definition alice : User :=
  {| id := 1; email := "alice@example.org"; password := "hash-of-wonderland";
     authentication_token := Some "secret";
     roles := [{| name := "editor" |}]; confirmed_at := Some 3 |}.

(** A user without an authentication token. *)
Definition bob : User :=
  {| id := 2; email := "bob@example.org"; password := "hash-of-builder";
     authentication_token := None;
     roles := []; confirmed_at := None |}.

(** A datastore holding [alice] and [bob]: a query selects the first user
    whose field equals the given value, and raises when there is none. *)
Definition matches (q : Query) (u : User) : bool :=
  match q with
  | ByAuthenticationToken t => bool_decide (authentication_token u = t)
  | ByEmail a => bool_decide (email u = a)
  | ById n => bool_decide (id u = n)
  end.

Definition lookup (q : Query) : result User :=
  match filter (fun u => matches q u = true) [alice; bob] with
  | u :: _ => Ok u
  | [] => Exc UserNotFoundError
  end.

(** A password context whose hash of [p] is [hash-of-p]. *)
Definition hash_verify (plaintext hash : string) : result bool :=
  Ok (bool_decide (hash = "hash-of-" ++ plaintext)).

Definition app : Security :=
  {| token_authentication_header := "Authentication-Token";
     token_authentication_key := "auth_token";
     login_view := "/login";
     find_user := lookup;
     verify := hash_verify |}.

Definition bare_request : Request :=
  {| headers := ∅; args := ∅; authorization := None;
     url := "http://localhost/dashboard"; referrer := None |}.

(** A request that carries one token in the header and another one in the
    query string. *)
Definition two_token_request : Request :=
  {| headers := {[ "Authentication-Token" := "from-header" ]};
     args := {[ "auth_token" := "from-query" ]};
     authorization := None;
     url := "http://localhost/api?auth_token=from-query"; referrer := None |}.

Definition wrong_password_request : Request :=
  {| headers := ∅; args := ∅;
     authorization := Some {| username := "alice@example.org";
                              auth_password := "looking-glass" |};
     url := "http://localhost/admin"; referrer := None |}.

Definition anonymous (r : Request) : Context :=
  {| security := app; request := r; current_user := None; provides := ∅ |}.

(** The context of a logged-in user: the identity provides a role need for
    each role of the user. *)
Definition logged_in (u : User) (r : Request) : Context :=
  {| security := app; request := r; current_user := Some u;
     provides := list_to_set (RoleNeed <$> (name <$> roles u)) |}.

Definition page : Response := mkResponse "Dashboard" 200 [].

(** An application whose datastore answers every query with [alice]. *)
Definition careless_app : Security :=
  {| token_authentication_header := "Authentication-Token";
     token_authentication_key := "auth_token";
     login_view := "/login";
     find_user := fun _ => Ok alice;
     verify := hash_verify |}.

(** *** Tokens, configuration and datastore of the views *)

(** A codec that knows four tokens, all issued at time 0. *)
Definition codec (token : string) : option (nat * Views.purpose * Z) :=
  if String.eqb token "confirm-alice" then Some (1%nat, Views.Confirm, 0)
  else if String.eqb token "confirm-bob" then Some (2%nat, Views.Confirm, 0)
  else if String.eqb token "reset-bob" then Some (2%nat, Views.Reset, 0)
  else if String.eqb token "login-bob" then Some (2%nat, Views.Login, 0)
  else None.

(** The configuration at time [clock]: every token lives for 5 time units,
    only the post-login view is configured. *)
Definition env (clock : Z) : Views.Env :=
  {| Views.decode := codec;
     Views.ttl := fun _ => 5;
     Views.now := clock;
     Views.url_for := fun endpoint => "/" ++ endpoint;
     Views.get_url := fun v => v;
     Views.confirm_error_view := None;
     Views.post_confirm_view := None;
     Views.post_login_view := Some "/";
     Views.post_reset_view := None;
     Views.get_post_login_redirect := "/";
     Views.login_within := "5 days";
     Views.confirm_email_within := "5 days";
     Views.reset_password_within := "5 days";
     Views.validate_on_submit := false;
     Views.form_password := "";
     Views.current_template := "security/reset_password.html" |}.

(** The start of a request whose session belongs to [who]. *)
Definition world (who : option nat) : Views.World :=
  {| Views.users := {[ 1%nat := alice; 2%nat := bob ]};
     Views.session := who;
     Views.actions := [];
     Views.callbacks := [] |}.

End Examples.

(** ** The statements that the code refutes *)

Module Stated.
Import Decorators Views.

(** Header precedence: with a token in the header and one in the query
    string, the lookup is made with the header's. *)
Definition header_takes_precedence : Prop :=
  forall (c : Context) (h q : string),
    headers (request c) !! token_authentication_header (security c) = Some h ->
    args (request c) !! token_authentication_key (security c) = Some q ->
    (run (_check_token c)).2 = [FindUser (ByAuthenticationToken (Some h))].

(** Replay of a confirmation token: whenever the token names an identity
    that is already confirmed, the view answers with the redirect of a
    success, flashes that the identity is already confirmed, flashes neither
    an invalid nor an expired token and registers no commit. *)
Definition replay_is_always_already_confirmed : Prop :=
  forall (e : Env) (w : World) (token : string) (uid : nat) (issued_at : Z)
         (u : User) (stamp : Z),
    actions w = [] -> callbacks w = [] ->
    decode e token = Some (uid, Confirm, issued_at) ->
    users w !! uid = Some u ->
    confirmed_at u = Some stamp ->
    let out := confirm_email e token w in
    out.1 = (redirect_to (or_opt (get_url e (post_confirm_view e))
                                 (get_url e (post_login_view e))) w).1
    /\ FlashNext "ALREADY_CONFIRMED" [] ∈ actions out.2
    /\ (FlashNext "INVALID_CONFIRMATION_TOKEN" [] ∉ actions out.2)
    /\ (forall kwargs, FlashNext "CONFIRMATION_EXPIRED" kwargs ∉ actions out.2)
    /\ callbacks out.2 = [].


End Stated.

(** ** [flask_security/views.py]: logout and the form views *)

(** The bodies of [logout], [login], [register], [passwordless_login],
    [send_confirmation], [forgot_password] and [change_password], and the JSON
    rendering they share.  The decorators [anonymous_user_required] and
    [login_required] that wrap some of them are not among the sources. *)

Module FormViews.
Import Views.

(** [logout]: the session is left only when somebody is logged in; the
    redirect goes to the [next] argument of the request, or to the
    post-logout view when there is none. *)
Definition logout (e : Env) (request_args : gmap string string)
    (post_logout_view : option string) : Eff World Response :=
  w ← get;
  when (bool_decide (is_Some (session w))) logout_user;;
  redirect_to (or_opt (dict_get request_args "next" None)
                      (get_url e post_logout_view)).

(** A JSON value, as far as the views build and test one. *)
#[local] Unset Elimination Schemes.
Inductive json : Type :=
| JNum (n : Z)
| JStr (s : string)
| JList (items : list json)
| JObj (members : list (string * json)).
#[local] Set Elimination Schemes.

(** Truthiness of [request.json]: [None], zero and the empty string, list
    and object are falsy. *)
Definition json_truthy (j : option json) : bool :=
  match j with
  | None => false
  | Some (JNum n) => negb (n =? 0)%Z
  | Some (JStr s) => negb (String.eqb s "")
  | Some (JList []) => false
  | Some (JObj []) => false
  | Some _ => true
  end.

(** [request.json is None]. *)
Definition json_is_none (j : option json) : bool :=
  match j with
  | None => true
  | Some _ => false
  end.

(** The current form once [validate_on_submit] has run: the user it found,
    its errors by field, and the data of the fields the views read.  The
    answer of [validate_on_submit] itself is the one of [Env]. *)
Record Form : Type := {
  user : option User;
  errors : list (string * list string);
  remember : bool;                        (* remember.data *)
  new_password : string;                  (* new_password.data *)
  to_dict : list (string * string);
}.

(** [use_form.user = value]. *)
Definition set_user (f : Form) (value : option User) : Form :=
  {| user := value; errors := errors f; remember := remember f;
     new_password := new_password f; to_dict := to_dict f |}.

(** What a form view leaves behind, in order: the actions of the token
    views, and those only the form views have. *)
Inductive note : Type :=
| Did (a : action)
| Print (f : Form)                        (* print(form.__dict__) *)
| LoginUserRemember (uid : nat) (remember_me : bool)
| ChangeUserPassword (uid : nat) (password_data : string).

(** The request-scoped state of a form view. *)
Record Stage : Type := {
  store : gmap nat User;
  logged_in : option nat;
  notes : list note;
  registered : list callback;
}.

(** A form view answers with a page or with a JSON document. *)
Inductive reply : Type :=
| Page (r : Response)
| Jsonify (document : json).

(** What the form views read besides [Env]: the form, the JSON body and
    the settings of [_security], and the two helpers that act on users. *)
Record Site : Type := {
  site_env : Env;
  current_form : Form;
  request_json : option json;
  post_change_view : option string;
  confirmable : bool;
  login_without_confirmation : bool;
  get_post_register_redirect : string;
  get_auth_token : User -> string;        (* user.get_auth_token() *)
  register_user : list (string * string) -> Eff Stage User;
}.

(** Run a computation of the token views inside a form view: it starts
    without actions of its own, and the actions it leaves are appended to
    the notes. *)
Definition lift_world {A} (m : Eff World A) : Eff Stage A :=
  fun s =>
    let '(r, w) := m {| users := store s; session := logged_in s;
                        actions := []; callbacks := registered s |} in
    (r, {| store := users w; logged_in := session w;
           notes := (notes s ++ (Did <$> actions w))%list;
           registered := callbacks w |}).

Definition leave (n : note) : Eff Stage unit :=
  modify (fun s => {| store := store s; logged_in := logged_in s;
                      notes := (notes s ++ [n])%list;
                      registered := registered s |}).

(** [user.field] where [user] may be [None]. *)
Definition field {A} (f : User -> A) (who : option User) : Eff Stage A :=
  match who with
  | Some u => mret (f u)
  | None => raise AttributeError
  end.

(** [current_user]: the user of the session, anonymous when the session
    names nobody the datastore knows. *)
Definition current_user_of (s : Stage) : option User :=
  match logged_in s with
  | Some uid => store s !! uid
  | None => None
  end.

(** Modelled from the spec: [login_user] lives in [utils.py], which is not
    among the sources.  As [Views.login_user], with the [remember] flag the
    login view passes on. *)
Definition login_user_remember (who : option User) (remember_me : bool)
    : Eff Stage unit :=
  uid ← field id who;
  leave (LoginUserRemember uid remember_me);;
  modify (fun s => {| store := store s; logged_in := Some uid;
                      notes := notes s; registered := registered s |}).

Definition change_user_password (who : option User) (password_data : string)
    : Eff Stage unit :=
  uid ← field id who; leave (ChangeUserPassword uid password_data).

(** [dict(errors=form.errors)] as a JSON object. *)
Definition errors_json (errs : list (string * list string)) : json :=
  JObj ((fun '(name, messages) => (name, JList (JStr <$> messages))) <$> errs).

Definition _render_json (site : Site) (form : Form)
    (include_auth_token : bool) : Eff Stage reply :=
  leave (Print form);;
  let has_errors := bool_decide (0 < length (errors form))%nat in
  '(code, response) ←
    (if has_errors then
       mret (400, JObj [("errors", errors_json (errors form))])
     else
       uid ← field id (user form);
       let identifier := ("id", JStr (pretty uid)) in
       if include_auth_token then
         token ← field (get_auth_token site) (user form);
         mret (200, JObj [("user", JObj [identifier;
                                         ("authentication_token", JStr token)])])
       else mret (200, JObj [("user", JObj [identifier])]));
  mret (Jsonify (JObj [("meta", JObj [("code", JNum code)]);
                       ("response", response)])).

(** The tail the form views share: the JSON rendering for a JSON request,
    the template otherwise. *)
Definition json_or_template (site : Site) (form : Form)
    (include_auth_token : bool) : Eff Stage reply :=
  if json_truthy (request_json site)
  then _render_json site form include_auth_token
  else mret (Page (render_template (current_template (site_env site)))).

Definition login (site : Site) : Eff Stage reply :=
  let use_form := current_form site in
  returned ←
    (if validate_on_submit (site_env site) then
       login_user_remember (user use_form) (remember use_form);;
       lift_world (after_this_request _commit);;
       if negb (json_truthy (request_json site)) then
         mret (Some (Page (redirect
                             (plain (get_post_login_redirect (site_env site))))))
       else mret None
     else mret None);
  match returned with
  | Some r => mret r
  | None => json_or_template site use_form true
  end.

Definition register (site : Site) : Eff Stage reply :=
  let use_form := current_form site in
  '(returned, use_form') ←
    (if validate_on_submit (site_env site) then
       created ← register_user site (to_dict use_form);
       let use_form' := set_user use_form (Some created) in
       (if negb (confirmable site) || login_without_confirmation site then
          lift_world (after_this_request _commit);;
          lift_world (login_user (Some created))
        else mret tt);;
       if negb (json_truthy (request_json site)) then
         mret (Some (Page (redirect (plain (get_post_register_redirect site)))),
               use_form')
       else mret (None, use_form')
     else mret (None, use_form));
  match returned with
  | Some r => mret r
  | None => json_or_template site use_form' false
  end.

Definition passwordless_login (site : Site) : Eff Stage reply :=
  let use_form := current_form site in
  (if validate_on_submit (site_env site) then
     lift_world (send_login_instructions (user use_form));;
     if json_is_none (request_json site) then
       address ← field email (user use_form);
       lift_world (flash_next "LOGIN_EMAIL_SENT" [("email", address)])
     else mret tt
   else mret tt);;
  json_or_template site use_form false.

Definition send_confirmation (site : Site) : Eff Stage reply :=
  let use_form := current_form site in
  (if validate_on_submit (site_env site) then
     lift_world (send_confirmation_instructions (user use_form));;
     if json_is_none (request_json site) then
       address ← field email (user use_form);
       lift_world (flash_next "CONFIRMATION_REQUEST" [("email", address)])
     else mret tt
   else mret tt);;
  json_or_template site use_form false.

Definition forgot_password (site : Site) : Eff Stage reply :=
  let use_form := current_form site in
  (if validate_on_submit (site_env site) then
     lift_world (send_reset_password_instructions (user use_form));;
     if json_is_none (request_json site) then
       address ← field email (user use_form);
       lift_world (flash_next "PASSWORD_RESET_REQUEST" [("email", address)])
     else mret tt
   else mret tt);;
  json_or_template site use_form false.

Definition change_password (site : Site) : Eff Stage reply :=
  let use_form := current_form site in
  let e := site_env site in
  returned ←
    (if validate_on_submit e then
       lift_world (after_this_request _commit);;
       s ← get;
       change_user_password (current_user_of s) (new_password use_form);;
       if json_is_none (request_json site) then
         lift_world (flash_next "PASSWORD_CHANGE" []);;
         r ← lift_world (redirect_to (or_opt (get_url e (post_change_view site))
                                             (get_url e (post_login_view e))));
         mret (Some (Page r))
       else mret None
     else mret None);
  match returned with
  | Some r => mret r
  | None =>
      if json_truthy (request_json site) then
        s ← get;
        _render_json site (set_user use_form (current_user_of s)) false
      else mret (Page (render_template (current_template e)))
  end.

(** The state after a form view left the notes [ns]. *)
Definition noted (s : Stage) (ns : list note) : Stage :=
  {| store := store s; logged_in := logged_in s;
     notes := (notes s ++ ns)%list; registered := registered s |}.

(** The document of [_render_json] for a form without errors. *)
Definition user_document (site : Site) (u : User) (include_auth_token : bool)
    : json :=
  JObj [("meta", JObj [("code", JNum 200)]);
        ("response",
         JObj [("user",
                JObj (("id", JStr (pretty (id u)))
                        :: if include_auth_token
                           then [("authentication_token",
                                  JStr (get_auth_token site u))]
                           else []))])].

(** The document of [_render_json] for a form with errors. *)
Definition errors_document (form : Form) : json :=
  JObj [("meta", JObj [("code", JNum 400)]);
        ("response", JObj [("errors", errors_json (errors form))])].

(** What the three views that send instructions leave before they answer. *)
Definition sent (site : Site) (sender : action) (key : string) (u : User)
    : list note :=
  if validate_on_submit (site_env site) then
    Did sender
      :: (if json_is_none (request_json site)
          then [Did (FlashNext key [("email", email u)])]
          else [])
  else [].

End FormViews.

(** ** [flask_security/views.py]: the blueprint *)

Module Blueprints.

(** The view functions a route can be bound to. *)
Inductive view_function : Type :=
| logout | login | passwordless_login | token_login | register
| forgot_password | reset_password | change_password
| send_confirmation | confirm_email.

#[global] Instance view_function_eq_dec : EqDecision view_function.
Proof. solve_decision. Defined.

(** The extension state [create_blueprint] reads. *)
Record State : Type := {
  blueprint_name : string;
  url_prefix : option string;
  subdomain : option string;
  logout_url : string;
  login_url : string;
  register_url : string;
  reset_url : string;
  change_url : string;
  confirm_url : string;
  passwordlessable : bool;
  registerable : bool;
  recoverable : bool;
  changeable : bool;
  confirmable : bool;
}.

(** One [bp.route(rule, methods=..., endpoint=...)(view)]; [methods] is
    [None] where the call does not give them. *)
Record Route : Type := {
  rule : string;
  methods : option (list string);
  endpoint : string;
  view_func : view_function;
}.

Record Blueprint : Type := {
  name : string;
  import_name : string;
  bp_url_prefix : option string;
  bp_subdomain : option string;
  template_folder : string;
  routes : list Route;
}.

(** [bp.route(rule, methods=ms, endpoint=ep)(f)]. *)
Definition route (r : string) (ms : option (list string)) (ep : string)
    (f : view_function) (bp : Blueprint) : Blueprint :=
  {| name := name bp; import_name := import_name bp;
     bp_url_prefix := bp_url_prefix bp; bp_subdomain := bp_subdomain bp;
     template_folder := template_folder bp;
     routes := (routes bp ++ [{| rule := r; methods := ms; endpoint := ep;
                                 view_func := f |}])%list |}.

Definition get_post : option (list string) := Some ["GET"; "POST"].

Definition create_blueprint (state : State) (import : string) : Blueprint :=
  let bp := {| name := blueprint_name state; import_name := import;
               bp_url_prefix := url_prefix state;
               bp_subdomain := subdomain state;
               template_folder := "templates"; routes := [] |} in
  let bp := route (logout_url state) None "logout" logout bp in
  let bp :=
    if passwordlessable state then
      let bp := route (login_url state) get_post "login" passwordless_login bp in
      route (login_url state ++ "/<token>") None "token_login" token_login bp
    else route (login_url state) get_post "login" login bp in
  let bp :=
    if registerable state
    then route (register_url state) get_post "register" register bp
    else bp in
  let bp :=
    if recoverable state then
      let bp := route (reset_url state) get_post "forgot_password"
                      forgot_password bp in
      route (reset_url state ++ "/<token>") get_post "reset_password"
            reset_password bp
    else bp in
  let bp :=
    if changeable state
    then route (change_url state) get_post "change_password" change_password bp
    else bp in
  let bp :=
    if confirmable state then
      let bp := route (confirm_url state) get_post "send_confirmation"
                      send_confirmation bp in
      route (confirm_url state ++ "/<token>") get_post "confirm_email"
            confirm_email bp
    else bp in
  bp.

(** Whether the feature a view function belongs to is switched on; with
    passwordless login the password login view gives way. *)
Definition enabled (state : State) (v : view_function) : bool :=
  match v with
  | logout => true
  | login => negb (passwordlessable state)
  | passwordless_login | token_login => passwordlessable state
  | register => registerable state
  | forgot_password | reset_password => recoverable state
  | change_password => changeable state
  | send_confirmation | confirm_email => confirmable state
  end.

End Blueprints.

(** ** More concrete applications and requests *)

Module MoreExamples.
Import Examples.

(** A request whose token is in the header only. *)
Definition header_only_request : Request :=
  {| headers := {[ "Authentication-Token" := "secret" ]};
     args := ∅;
     authorization := None;
     url := "http://localhost/api"; referrer := None |}.

(** An application whose password context rejects every hash as
    malformed. *)
Definition strict_app : Security :=
  {| token_authentication_header := "Authentication-Token";
     token_authentication_key := "auth_token";
     login_view := "/login";
     find_user := lookup;
     verify := fun _ _ => Exc ValueError |}.

(** The request of [alice] with a wrong password, to the application whose
    password context raises. *)
Definition strict_context : Context :=
  {| security := strict_app; request := wrong_password_request;
     current_user := None; provides := ∅ |}.


End MoreExamples.

(** ** Concrete forms, sites and blueprint states *)

Module FormExamples.
Import Examples FormViews.

(** The configuration of [Examples.env] with a form that validates. *)
Definition submitted_env (clock : Z) : Views.Env :=
  {| Views.decode := codec;
     Views.ttl := fun _ => 5;
     Views.now := clock;
     Views.url_for := fun endpoint => "/" ++ endpoint;
     Views.get_url := fun v => v;
     Views.confirm_error_view := None;
     Views.post_confirm_view := None;
     Views.post_login_view := Some "/";
     Views.post_reset_view := None;
     Views.get_post_login_redirect := "/";
     Views.login_within := "5 days";
     Views.confirm_email_within := "5 days";
     Views.reset_password_within := "5 days";
     Views.validate_on_submit := true;
     Views.form_password := "wonderland";
     Views.current_template := "security/login.html" |}.

(** A form that found [alice] and has no errors. *)
Definition alice_form : Form :=
  {| user := Some alice; errors := []; remember := true;
     new_password := "looking-glass";
     to_dict := [("email", "alice@example.org"); ("password", "wonderland")] |}.

(** A form that was rejected. *)
Definition rejected_form : Form :=
  {| user := None; errors := [("email", ["Email not provided"])];
     remember := false; new_password := "";
     to_dict := [("email", ""); ("password", "")] |}.

Definition carol : User :=
  {| id := 3; email := "carol@example.org"; password := "hash-of-chess";
     authentication_token := None; roles := []; confirmed_at := None |}.

(** A registration that stores [carol], whatever the form says. *)
Definition register_carol (fields : list (string * string))
    : Eff Stage User :=
  fun s => (Ok carol,
            {| store := <[3%nat := carol]> (store s);
               logged_in := logged_in s; notes := notes s;
               registered := registered s |}).

(** A site whose form is [form], with the given JSON body; users must
    confirm their address iff [must_confirm]. *)
Definition site (e : Views.Env) (form : Form) (body : option json)
    (must_confirm : bool) : Site :=
  {| site_env := e; current_form := form; request_json := body;
     post_change_view := None;
     confirmable := must_confirm; login_without_confirmation := false;
     get_post_register_redirect := "/welcome";
     get_auth_token := fun u => "token-of-" ++ email u;
     register_user := register_carol |}.

(** The start of a form request whose session belongs to [who]. *)
Definition stage (who : option nat) : Stage :=
  {| store := {[ 1%nat := alice; 2%nat := bob ]};
     logged_in := who; notes := []; registered := [] |}.

(** An extension state with every feature switched on. *)
Definition all_features : Blueprints.State :=
  {| Blueprints.blueprint_name := "security";
     Blueprints.url_prefix := None;
     Blueprints.subdomain := None;
     Blueprints.logout_url := "/logout";
     Blueprints.login_url := "/login";
     Blueprints.register_url := "/register";
     Blueprints.reset_url := "/reset";
     Blueprints.change_url := "/change";
     Blueprints.confirm_url := "/confirm";
     Blueprints.passwordlessable := true;
     Blueprints.registerable := true;
     Blueprints.recoverable := true;
     Blueprints.changeable := true;
     Blueprints.confirmable := true |}.

End FormExamples.

(** ** Properties of the decorators *)

Module DecoratorsFacts.
Import Decorators Examples MoreExamples Stated.

(** The lookup of [_check_token] is made once, with the query argument when
    there is one and with the header's value otherwise. *)
Lemma check_token_run (c : Context) :
  let token := dict_get (args (request c))
                 (token_authentication_key (security c))
                 (dict_get (headers (request c))
                    (token_authentication_header (security c)) None) in
  run (_check_token c) =
    (Ok (match find_user (security c) (ByAuthenticationToken token) with
         | Ok _ => true
         | Exc _ => false
         end),
     [FindUser (ByAuthenticationToken token)]).
Proof.
  intros token. unfold run, _check_token, try_except, datastore_find_user.
  fold token. cbn.
  destruct (find_user (security c) (ByAuthenticationToken token)); reflexivity.
Qed.

(** C1, as amended.  With a token in the header and one in the query string,
    the identity lookup is made with the value of the query parameter. *)
Theorem query_parameter_takes_precedence (c : Context) (h q : string) :
  headers (request c) !! token_authentication_header (security c) = Some h ->
  args (request c) !! token_authentication_key (security c) = Some q ->
  (run (_check_token c)).2 = [FindUser (ByAuthenticationToken (Some q))].
Proof.
  intros _ Hq. rewrite check_token_run. cbn. unfold dict_get at 1.
  rewrite Hq. reflexivity.
Qed.

Lemma query_parameter_takes_precedence_witness :
  (run (_check_token (anonymous two_token_request))).2
  = [FindUser (ByAuthenticationToken (Some "from-query"))].
Proof.
  apply (query_parameter_takes_precedence (anonymous two_token_request)
           "from-header" "from-query"); vm_compute; reflexivity.
Defined.

(** C1, as stated, fails: on a request with both tokens the lookup is made
    with the query parameter's value, not with the header's. *)
Lemma header_does_not_take_precedence : ~ header_takes_precedence.
Proof.
  intros H.
  specialize (H (anonymous two_token_request) "from-header" "from-query").
  assert (Hrun : (run (_check_token (anonymous two_token_request))).2
                 = [FindUser (ByAuthenticationToken (Some "from-query"))])
    by (vm_compute; reflexivity).
  rewrite Hrun in H.
  specialize (H ltac:(vm_compute; reflexivity) ltac:(vm_compute; reflexivity)).
  discriminate H.
Qed.

(** C9.  The token guard calls the wrapped view exactly when the datastore
    lookup by authentication token returns: whatever user the lookup returns
    is accepted, its stored token is not compared with the token of the
    request; and a request without header and query parameter is looked up
    with [None], so a lookup that returns for [None] grants access to it. *)
Theorem token_guard_grants_iff_lookup_returns (c : Context) (r : Response) :
  let token := dict_get (args (request c))
                 (token_authentication_key (security c))
                 (dict_get (headers (request c))
                    (token_authentication_header (security c)) None) in
  let lookup_result := find_user (security c) (ByAuthenticationToken token) in
  let out := run (auth_token_required (view r) c) in
  (Invoke ∈ out.2 <-> exists u, lookup_result = Ok u)
  /\ (forall u, lookup_result = Ok u ->
       out = (Ok r, [FindUser (ByAuthenticationToken token); Invoke]))
  /\ (forall u, lookup_result = Ok u -> authentication_token u <> token ->
       Invoke ∈ out.2)
  /\ (forall e, lookup_result = Exc e ->
       out = (Exc (HTTPException 401),
              [FindUser (ByAuthenticationToken token)]))
  /\ (headers (request c) !! token_authentication_header (security c) = None ->
      args (request c) !! token_authentication_key (security c) = None ->
      token = None
      /\ forall u, find_user (security c) (ByAuthenticationToken None) = Ok u ->
           out = (Ok r, [FindUser (ByAuthenticationToken None); Invoke])).
Proof.
  intros token lookup_result out.
  assert (Hout : out =
            match lookup_result with
            | Ok _ => (Ok r, [FindUser (ByAuthenticationToken token); Invoke])
            | Exc _ => (Exc (HTTPException 401),
                        [FindUser (ByAuthenticationToken token)])
            end).
  { subst out. unfold run, auth_token_required.
    unfold mbind, eff_bind, bind at 1.
    pose proof (check_token_run c) as Hrun. cbn zeta in Hrun.
    unfold run in Hrun. rewrite Hrun. fold token. fold lookup_result.
    destruct lookup_result; reflexivity. }
  assert (Hgrant : forall u, lookup_result = Ok u ->
            out = (Ok r, [FindUser (ByAuthenticationToken token); Invoke])).
  { intros u Hu. rewrite Hout, Hu. reflexivity. }
  split; [|split; [exact Hgrant|split; [|split]]].
  - rewrite Hout. destruct lookup_result as [u|e]; cbn.
    + split; [eauto|]. intros _. set_solver.
    + split.
      * intros Hin. apply list_elem_of_singleton in Hin. discriminate Hin.
      * intros [u Hu]. discriminate Hu.
  - intros u Hu _. rewrite (Hgrant u Hu). cbn. set_solver.
  - intros e He. rewrite Hout, He. reflexivity.
  - intros Hh Ha.
    assert (Htoken : token = None).
    { subst token. unfold dict_get. rewrite Ha, Hh. reflexivity. }
    split; [exact Htoken|].
    intros u Hu. rewrite <- Htoken in *. exact (Hgrant u Hu).
Qed.

(** The user the lookup returns is not looked at: a datastore that answers
    with [alice], whose token is [secret], lets the token [from-query] in. *)
Example token_guard_accepts_any_returned_user :
  run (auth_token_required (view page)
         {| security := careless_app; request := two_token_request;
            current_user := None; provides := ∅ |})
  = (Ok page, [FindUser (ByAuthenticationToken (Some "from-query")); Invoke]).
Proof. vm_compute. reflexivity. Qed.

Lemma token_guard_grants_iff_lookup_returns_witness :
  run (auth_token_required (view page) (anonymous bare_request))
  = (Ok page, [FindUser (ByAuthenticationToken None); Invoke]).
Proof.
  pose proof (token_guard_grants_iff_lookup_returns
                (anonymous bare_request) page) as H.
  cbv zeta in H.
  destruct H as (_ & _ & _ & _ & H).
  destruct (H ltac:(vm_compute; reflexivity) ltac:(vm_compute; reflexivity))
    as [_ Hgrant].
  apply (Hgrant bob). vm_compute. reflexivity.
Defined.

(** *** Role requirements *)

Lemma can_run (c : Context) (perm : Permission) (t : trace) :
  can c perm t = (Ok (allows perm (provides c)), (t ++ [Can perm])%list).
Proof. reflexivity. Qed.

(** A permission for one role is allowed exactly when the role is held. *)
Lemma allows_role_permission (role : string) (provided : gset Need) :
  allows (role_permission role) provided
  = bool_decide (RoleNeed role ∈ provided).
Proof.
  unfold allows, role_permission, mkPermission. cbn.
  destruct (decide (RoleNeed role ∈ provided)) as [Hin|Hout].
  - rewrite (bool_decide_eq_true_2 _ Hin).
    rewrite bool_decide_eq_false_2 by (intros [_ Hempty]; set_solver).
    rewrite bool_decide_eq_false_2 by (intros [Hne _]; done).
    reflexivity.
  - rewrite (bool_decide_eq_false_2 _ Hout).
    rewrite bool_decide_eq_true_2; [reflexivity|]. split.
    + apply (non_empty_inhabited_L (RoleNeed role)). set_solver.
    + apply elem_of_equiv_empty_L. intros need Hneed.
      apply elem_of_intersection in Hneed as [Hneed Hprovided].
      apply elem_of_union in Hneed as [Hneed|Hneed].
      * apply elem_of_singleton in Hneed. subst need. done.
      * apply not_elem_of_empty in Hneed. done.
Qed.

(** A permission for a non-empty list of roles is allowed exactly when one
    of them is held. *)
Lemma allows_any_of (role_names : list string) (provided : gset Need) :
  role_names <> [] ->
  allows (mkPermission (RoleNeed <$> role_names)) provided = true
  <-> list_to_set (RoleNeed <$> role_names) ∩ provided ≠ (∅ : gset Need).
Proof.
  intros Hne. unfold allows, mkPermission. cbn.
  assert (Hneeds : list_to_set (RoleNeed <$> role_names) ≠ (∅ : gset Need)).
  { destruct role_names as [|role rest]; [done|]. cbn. set_solver. }
  rewrite (bool_decide_eq_false_2 (∅ ≠ ∅ ∧ _)) by (intros [H _]; done).
  case_bool_decide as Hd.
  - split; [discriminate|]. intros Hi. destruct Hd as [_ Hd]. done.
  - split; [|done]. intros _ Hi. apply Hd. done.
Qed.

Lemma holds_all_subseteq (c : Context) (role_names : list string) :
  Forall (holds c) role_names
  <-> list_to_set (RoleNeed <$> role_names) ⊆ provides c.
Proof.
  unfold holds. rewrite Forall_forall. split.
  - intros H need Hin. apply elem_of_list_to_set in Hin.
    apply list_elem_of_fmap in Hin as (role & -> & Hrole). auto.
  - intros H role Hrole. apply H. apply elem_of_list_to_set.
    apply list_elem_of_fmap. eauto.
Qed.

Lemma holds_some_intersection (c : Context) (role_names : list string) :
  Exists (holds c) role_names
  <-> list_to_set (RoleNeed <$> role_names) ∩ provides c ≠ (∅ : gset Need).
Proof.
  unfold holds. rewrite Exists_exists. split.
  - intros (role & Hrole & Hheld) Hempty.
    assert (Hin : RoleNeed role
                  ∈ list_to_set (RoleNeed <$> role_names) ∩ provides c).
    { apply elem_of_intersection. split; [|done].
      apply elem_of_list_to_set, list_elem_of_fmap. eauto. }
    rewrite Hempty in Hin. set_solver.
  - intros Hne. apply set_choose_L in Hne as [need Hin].
    apply elem_of_intersection in Hin as [Hin Hheld].
    apply elem_of_list_to_set, list_elem_of_fmap in Hin as (role & -> & Hrole).
    eauto.
Qed.

(** The loop runs to its end when every role is held. *)
Lemma for_perms_all_held (c : Context) (names role_names : list string)
    (t : trace) :
  Forall (holds c) role_names ->
  for_perms c names (role_permission <$> role_names) t
  = (Ok None, (t ++ checks role_names)%list).
Proof.
  intros Hall. revert t.
  induction Hall as [|role rest Hheld _ IH]; intros t; cbn.
  - rewrite app_nil_r. reflexivity.
  - unfold mbind, eff_bind, bind at 1. rewrite can_run.
    rewrite allows_role_permission, (bool_decide_eq_true_2 _ Hheld). cbn.
    rewrite IH, <- app_assoc. reflexivity.
Qed.

(** The loop returns at the first role that is not held: the roles before
    it were checked, the roles after it are not. *)
Lemma for_perms_first_missing (c : Context) (names pre post : list string)
    (missing : string) (t : trace) :
  Forall (holds c) pre -> ~ holds c missing ->
  for_perms c names (role_permission <$> (pre ++ missing :: post)%list) t
  = (Ok (Some (redirect (denial_target c))),
     (t ++ checks pre
        ++ [Can (role_permission missing);
            LogDebug "Identity does not provide the roles: %s" [names]])%list).
Proof.
  intros Hall Hmissing. revert t.
  induction Hall as [|role rest Hheld _ IH]; intros t; cbn.
  - unfold mbind, eff_bind, bind at 1. rewrite can_run.
    rewrite allows_role_permission, (bool_decide_eq_false_2 _ Hmissing). cbn.
    rewrite <- app_assoc. reflexivity.
  - unfold mbind, eff_bind, bind at 1. rewrite can_run.
    rewrite allows_role_permission, (bool_decide_eq_true_2 _ Hheld). cbn.
    rewrite IH, <- app_assoc. reflexivity.
Qed.

(** A list with a role that is not held splits at the first such role. *)
Lemma first_missing_role (c : Context) (role_names : list string) :
  ~ Forall (holds c) role_names ->
  exists pre missing post,
    role_names = (pre ++ missing :: post)%list
    /\ Forall (holds c) pre /\ ~ holds c missing.
Proof.
  induction role_names as [|role rest IH]; intros Hnot.
  - destruct Hnot. constructor.
  - destruct (decide (RoleNeed role ∈ provides c)) as [Hheld|Hmissing].
    + destruct IH as (pre & missing & post & -> & Hpre & Hm).
      { intros Hrest. apply Hnot. constructor; done. }
      exists (role :: pre), missing, post. split; [done|].
      split; [constructor; done|done].
    + exists [], role, rest. split; [done|]. split; [constructor|done].
Qed.

Lemma invoke_not_checked (role_names : list string) :
  Invoke ∉ checks role_names.
Proof.
  unfold checks. intros Hin.
  apply list_elem_of_fmap in Hin as (role & Heq & _). discriminate Heq.
Qed.

Lemma roles_required_all_held (c : Context) (role_names : list string)
    (fn : Eff trace Response) :
  is_authenticated c = true -> Forall (holds c) role_names ->
  run (roles_required role_names fn c) = fn (checks role_names).
Proof.
  intros Hauth Hall. unfold run, roles_required. rewrite Hauth. cbn.
  unfold mbind, eff_bind, bind.
  rewrite (for_perms_all_held c role_names role_names [] Hall).
  reflexivity.
Qed.

Lemma roles_required_first_missing (c : Context) (pre post : list string)
    (missing : string) (fn : Eff trace Response) :
  is_authenticated c = true -> Forall (holds c) pre -> ~ holds c missing ->
  run (roles_required (pre ++ missing :: post)%list fn c)
  = (Ok (redirect (denial_target c)),
     (checks pre
        ++ [Can (role_permission missing);
            LogDebug "Identity does not provide the roles: %s"
                     [(pre ++ missing :: post)%list]])%list).
Proof.
  intros Hauth Hall Hmissing. unfold run, roles_required. rewrite Hauth. cbn.
  unfold mbind, eff_bind, bind.
  rewrite (for_perms_first_missing c _ pre post missing [] Hall Hmissing).
  reflexivity.
Qed.

(** C2.  For an authenticated identity, [roles_required] calls the wrapped
    view exactly when the identity holds every required role.  The roles are
    checked from left to right and the first one that is not held denies
    the request: the later ones are not checked, the view is not called and
    the answer is the redirect of a denial. *)
Theorem roles_required_iff_all_roles_held (c : Context)
    (role_names : list string) (r : Response) :
  is_authenticated c = true ->
  role_names <> [] ->
  (Invoke ∈ (run (roles_required role_names (view r) c)).2
   <-> list_to_set (RoleNeed <$> role_names) ⊆ provides c)
  /\ (Forall (holds c) role_names ->
      run (roles_required role_names (view r) c)
      = (Ok r, (checks role_names ++ [Invoke])%list))
  /\ (forall pre missing post (fn : Eff trace Response),
        role_names = (pre ++ missing :: post)%list ->
        Forall (holds c) pre -> ~ holds c missing ->
        run (roles_required role_names fn c)
        = (Ok (redirect (denial_target c)),
           (checks pre
              ++ [Can (role_permission missing);
                  LogDebug "Identity does not provide the roles: %s"
                           [role_names]])%list)).
Proof.
  intros Hauth _. split; [|split].
  - rewrite <- holds_all_subseteq.
    destruct (decide (Forall (holds c) role_names)) as [Hall|Hnot].
    + rewrite (roles_required_all_held c role_names _ Hauth Hall). cbn.
      split; [done|]. intros _. apply elem_of_app. right. set_solver.
    + destruct (first_missing_role c role_names Hnot)
        as (pre & missing & post & -> & Hpre & Hmissing).
      rewrite (roles_required_first_missing c pre post missing _
                 Hauth Hpre Hmissing). cbn.
      split; [|done]. intros Hin. exfalso.
      apply elem_of_app in Hin as [Hin|Hin].
      * exact (invoke_not_checked pre Hin).
      * apply elem_of_cons in Hin as [Hin|Hin]; [discriminate Hin|].
        apply list_elem_of_singleton in Hin. discriminate Hin.
  - intros Hall. rewrite (roles_required_all_held c role_names _ Hauth Hall).
    reflexivity.
  - intros pre missing post fn -> Hpre Hmissing.
    apply roles_required_first_missing; done.
Qed.

Lemma roles_required_iff_all_roles_held_witness :
  ~ Invoke ∈ (run (roles_required ["admin"; "editor"] (view page)
                                   (logged_in alice bare_request))).2.
Proof.
  intros Hin.
  destruct (roles_required_iff_all_roles_held
              (logged_in alice bare_request) ["admin"; "editor"] page
              eq_refl ltac:(discriminate)) as (Hiff & _ & _).
  apply Hiff in Hin.
  assert (Hadmin : RoleNeed "admin" ∈ provides (logged_in alice bare_request)).
  { apply Hin. cbn. set_solver. }
  cbn in Hadmin. apply elem_of_union in Hadmin as [Hadmin|Hadmin].
  - apply elem_of_singleton in Hadmin. discriminate Hadmin.
  - set_solver.
Defined.

Lemma roles_accepted_run (c : Context) (role_names : list string)
    (fn : Eff trace Response) :
  is_authenticated c = true ->
  let perm := mkPermission (RoleNeed <$> role_names) in
  run (roles_accepted role_names fn c)
  = if allows perm (provides c) then fn [Can perm]
    else (Ok (redirect (denial_target c)),
          [Can perm;
           LogDebug
             "Current user does not provide a required role. Accepted: %s Provided: %s"
             [role_names; current_user_role_names c];
           Flash "You do not have permission to view this resource" "error"]).
Proof.
  intros Hauth perm. unfold run, roles_accepted. rewrite Hauth. cbn.
  unfold mbind, eff_bind, bind. rewrite can_run. fold perm.
  destruct (allows perm (provides c)); reflexivity.
Qed.

(** C3.  For an authenticated identity and a non-empty list of roles,
    [roles_accepted] calls the wrapped view exactly when the identity holds
    at least one of them. *)
Theorem roles_accepted_iff_some_role_held (c : Context)
    (role_names : list string) (r : Response) :
  is_authenticated c = true ->
  role_names <> [] ->
  Invoke ∈ (run (roles_accepted role_names (view r) c)).2
  <-> list_to_set (RoleNeed <$> role_names) ∩ provides c ≠ (∅ : gset Need).
Proof.
  intros Hauth Hne.
  pose proof (roles_accepted_run c role_names (view r) Hauth) as Hrun.
  cbv zeta in Hrun. rewrite Hrun.
  rewrite <- (allows_any_of role_names (provides c) Hne).
  destruct (allows _ (provides c)); cbn.
  - split; [done|]. intros _. set_solver.
  - split; [|discriminate]. intros Hin. exfalso.
    repeat (apply elem_of_cons in Hin as [Hin|Hin]; [discriminate Hin|]).
    set_solver.
Qed.

Lemma roles_accepted_iff_some_role_held_witness :
  Invoke ∈ (run (roles_accepted ["editor"; "author"] (view page)
                                 (logged_in alice bare_request))).2.
Proof.
  apply (roles_accepted_iff_some_role_held
           (logged_in alice bare_request) ["editor"; "author"] page
           eq_refl ltac:(discriminate)).
  intros Hempty.
  assert (Hin : RoleNeed "editor"
                ∈ list_to_set (RoleNeed <$> ["editor"; "author"])
                  ∩ provides (logged_in alice bare_request)).
  { cbn. set_solver. }
  rewrite Hempty in Hin. set_solver.
Defined.

(** *** Denial and challenge *)






(** C6.  An anonymous request to a route guarded by [roles_required] or by
    [roles_accepted] is answered with a redirect to the configured login
    view whose [next] parameter is the requested URL; no permission is
    checked and the wrapped view is not called. *)
Theorem anonymous_is_sent_to_login (c : Context) (role_names : list string)
    (fn : Eff trace Response) :
  is_authenticated c = false ->
  let target := login_url (login_view (security c)) (url (request c)) in
  run (roles_required role_names fn c) = (Ok (redirect target), [])
  /\ run (roles_accepted role_names fn c) = (Ok (redirect target), [])
  /\ location (redirect target) = Some target
  /\ path target = login_view (security c)
  /\ query target = [("next", url (request c))].
Proof.
  intros Hanon target. unfold run, roles_required, roles_accepted.
  rewrite Hanon. repeat split.
Qed.

Lemma anonymous_is_sent_to_login_witness :
  run (roles_required ["admin"] (view page) (anonymous bare_request))
  = (Ok (redirect {| path := "/login";
                     query := [("next", "http://localhost/dashboard")] |}),
     []).
Proof.
  apply (anonymous_is_sent_to_login (anonymous bare_request) ["admin"]
           (view page) eq_refl).
Defined.

Lemma check_http_auth_run (c : Context) :
  run (_check_http_auth c)
  = match authorization (request c) with
    | None => (Ok false, [])
    | Some a =>
        match find_user (security c) (ByEmail (username a)) with
        | Exc _ => (Ok false, [FindUser (ByEmail (username a))])
        | Ok u =>
            (verify (security c) (auth_password a) (password u),
             [FindUser (ByEmail (username a));
              Verify (auth_password a) (password u)])
        end
    end.
Proof.
  unfold run, _check_http_auth, authorization_or_dict.
  destruct (authorization (request c)) as [a|]; [|reflexivity].
  unfold mbind, eff_bind, bind, try_except, datastore_find_user. cbn.
  destruct (find_user (security c) (ByEmail (username a))); reflexivity.
Qed.

(** An exception of the password context is outside the [try] and leaves
    the guard. *)
Lemma verify_exception_propagates (c : Context) (fn : Eff trace Response)
    (a : Authorization) (u : User) (e : exn) :
  authorization (request c) = Some a ->
  find_user (security c) (ByEmail (username a)) = Ok u ->
  verify (security c) (auth_password a) (password u) = Exc e ->
  (run (http_auth_required fn c)).1 = Exc e.
Proof.
  intros Ha Hu Hv. unfold run, http_auth_required.
  unfold mbind, eff_bind, bind at 1.
  pose proof (check_http_auth_run c) as Hrun. unfold run in Hrun.
  rewrite Hrun, Ha, Hu, Hv. reflexivity.
Qed.

(** The answer to a failed authentication is a 401 with a Basic
    challenge. *)
Lemma unauthorized_is_a_basic_challenge :
  status unauthorized = 401
  /\ exists challenge,
       ("WWW-Authenticate", challenge) ∈ response_headers unauthorized
       /\ String.prefix "Basic " challenge = true.
Proof.
  split; [reflexivity|].
  eexists. split; [apply list_elem_of_singleton; reflexivity|reflexivity].
Qed.

Lemma http_auth_required_run (c : Context) (fn : Eff trace Response) :
  run (http_auth_required fn c)
  = match run (_check_http_auth c) with
    | (Ok true, t) => fn t
    | (Ok false, t) => (Ok unauthorized, t)
    | (Exc e, t) => (Exc e, t)
    end.
Proof.
  unfold run, http_auth_required. unfold mbind, eff_bind, bind at 1.
  destruct (_check_http_auth c []) as [[[|]|e] t]; reflexivity.
Qed.

(** What [http_auth_required] does for each way of failing: the 401
    response without calling the view, except when the password context
    raises; then the exception leaves the guard. *)
Lemma http_auth_failure_outcomes (c : Context) (fn : Eff trace Response) :
  auth_failure c ->
  (exists t, run (http_auth_required fn c) = (Ok unauthorized, t)
             /\ Invoke ∉ t)
  \/ (exists a u e,
        authorization (request c) = Some a
        /\ find_user (security c) (ByEmail (username a)) = Ok u
        /\ verify (security c) (auth_password a) (password u) = Exc e
        /\ run (http_auth_required fn c)
           = (Exc e, [FindUser (ByEmail (username a));
                      Verify (auth_password a) (password u)])).
Proof.
  intros Hfail. rewrite http_auth_required_run, check_http_auth_run.
  destruct Hfail as [Ha|a Ha Hu|a e Ha Hu|a u Ha Hu Hv|a u e Ha Hu Hv].
  5: { right. exists a, u, e. rewrite Ha, Hu, Hv. auto. }
  all: left; rewrite Ha; try rewrite Hu; try rewrite Hv;
    eexists; (split; [reflexivity|]); intros Hin;
    repeat (apply elem_of_cons in Hin as [Hin|Hin]; [discriminate Hin|]);
    apply elem_of_nil in Hin; exact Hin.
Qed.

(** C4.  The code departs from the claim where the password context
    raises.  The request carries [alice]'s user name, the datastore returns
    her, and the password context rejects her stored hash with [ValueError]:
    an authentication failure, yet the exception leaves
    [http_auth_required] instead of the 401 response, because [verify] is
    called outside the [try].  The same request against a password context
    that answers [False], and a request without credentials, do get the 401
    response. *)
Theorem http_auth_verify_exception_escapes :
  auth_failure strict_context
  /\ run (http_auth_required (view page) strict_context)
     = (Exc ValueError,
        [FindUser (ByEmail "alice@example.org");
         Verify "looking-glass" "hash-of-wonderland"])
  /\ (run (http_auth_required (view page) strict_context)).1
     <> Ok unauthorized
  /\ run (http_auth_required (view page) (anonymous wrong_password_request))
     = (Ok unauthorized,
        [FindUser (ByEmail "alice@example.org");
         Verify "looking-glass" "hash-of-wonderland"])
  /\ run (http_auth_required (view page) (anonymous bare_request))
     = (Ok unauthorized, []).
Proof.
  assert (Hrun : run (http_auth_required (view page) strict_context)
                 = (Exc ValueError,
                    [FindUser (ByEmail "alice@example.org");
                     Verify "looking-glass" "hash-of-wonderland"]))
    by (vm_compute; reflexivity).
  split; [|split; [exact Hrun|split; [|split]]].
  - apply (hash_rejected strict_context
             {| username := "alice@example.org";
                auth_password := "looking-glass" |} alice ValueError);
      vm_compute; reflexivity.
  - rewrite Hrun. discriminate.
  - vm_compute. reflexivity.
  - vm_compute. reflexivity.
Qed.

End DecoratorsFacts.

(** ** Properties of the token views *)

Module ViewsFacts.
Import Views Examples Stated.

(** Unfold the sequencing of the views down to state passing. *)
Ltac step :=
  unfold mbind, eff_bind, bind, mret, eff_ret, ret, get, when, flash_next,
    send_login_instructions, send_confirmation_instructions,
    send_reset_password_instructions, login_user, logout_user, confirm_user,
    update_password, after_this_request, set_session, put, act, attr, modify,
    raise;
  cbn.

(** An expired login token: new instructions are sent, then the notice is
    flashed, then the request is redirected to the login view. *)
Lemma token_login_expired_resends (e : Env) (token : string) (w : World)
    (u : User) :
  token_status e Login token w = (true, false, Some u) ->
  (token_login e token w).1 = Ok (redirect (plain (url_for e "login")))
  /\ actions (token_login e token w).2
     = (actions w
          ++ [SendLoginInstructions (id u);
              FlashNext "LOGIN_EXPIRED"
                [("email", email u); ("within", login_within e)]])%list.
Proof.
  intros Hstatus. unfold token_login, login_token_status. step.
  rewrite Hstatus. step. rewrite <- app_assoc. split; reflexivity.
Qed.

(** An expired confirmation token: new instructions are sent, then the
    notice is flashed, then the request is redirected. *)
Lemma confirm_email_expired_resends (e : Env) (token : string) (w : World)
    (u : User) :
  token_status e Confirm token w = (true, false, Some u) ->
  let out := confirm_email e token w in
  out.1 = (redirect_to (or_opt (get_url e (confirm_error_view e))
                               (Some (url_for e "send_confirmation"))) w).1
  /\ actions out.2
     = (actions w
          ++ [SendConfirmationInstructions (id u);
              FlashNext "CONFIRMATION_EXPIRED"
                [("email", email u); ("within", confirm_email_within e)]])%list
  /\ callbacks out.2 = callbacks w
  /\ users out.2 = users w
  /\ session out.2 = session w.
Proof.
  intros Hstatus out. subst out.
  unfold confirm_email, confirm_email_token_status. step.
  rewrite Hstatus. step. rewrite <- app_assoc.
  unfold redirect_to. step.
  destruct (or_opt _ _); repeat split; reflexivity.
Qed.

(** An expired reset token: the notice is flashed and the request is
    redirected, and that is all. *)
Lemma reset_password_expired_only_flashes (e : Env) (token : string)
    (w : World) (u : User) :
  token_status e Reset token w = (true, false, Some u) ->
  (reset_password e token w).1
  = Ok (redirect (plain (url_for e "forgot_password")))
  /\ actions (reset_password e token w).2
     = (actions w
          ++ [FlashNext "PASSWORD_RESET_EXPIRED"
                [("email", email u); ("within", reset_password_within e)]])%list.
Proof.
  intros Hstatus. unfold reset_password, reset_password_token_status. step.
  rewrite Hstatus. step. split; reflexivity.
Qed.

(** C7.  The code departs from the claim in [reset_password]: for an expired
    reset token (issued at 0, presented at 6, with a time-to-live of 5) the
    view flashes the notice and redirects to the forgot-password view, and
    sends no new instructions, where [token_login] and [confirm_email] send
    them. *)
Theorem reset_password_expired_sends_no_instructions :
  token_status (env 6) Reset "reset-bob" (world None) = (true, false, Some bob)
  /\ (reset_password (env 6) "reset-bob" (world None)).1
     = Ok (redirect (plain "/forgot_password"))
  /\ actions (reset_password (env 6) "reset-bob" (world None)).2
     = [FlashNext "PASSWORD_RESET_EXPIRED"
          [("email", "bob@example.org"); ("within", "5 days")]]
  /\ (SendResetPasswordInstructions 2
      ∉ actions (reset_password (env 6) "reset-bob" (world None)).2)
  /\ actions (token_login (env 6) "login-bob" (world None)).2
     = [SendLoginInstructions 2;
        FlashNext "LOGIN_EXPIRED"
          [("email", "bob@example.org"); ("within", "5 days")]]
  /\ actions (confirm_email (env 6) "confirm-bob" (world None)).2
     = [SendConfirmationInstructions 2;
        FlashNext "CONFIRMATION_EXPIRED"
          [("email", "bob@example.org"); ("within", "5 days")]].
Proof.
  assert (Hreset : token_status (env 6) Reset "reset-bob" (world None)
                   = (true, false, Some bob)) by (vm_compute; reflexivity).
  assert (Hlogin : token_status (env 6) Login "login-bob" (world None)
                   = (true, false, Some bob)) by (vm_compute; reflexivity).
  assert (Hconfirm : token_status (env 6) Confirm "confirm-bob" (world None)
                     = (true, false, Some bob)) by (vm_compute; reflexivity).
  destruct (reset_password_expired_only_flashes _ _ _ _ Hreset) as [Hr Ha].
  destruct (token_login_expired_resends _ _ _ _ Hlogin) as [_ Hl].
  destruct (confirm_email_expired_resends _ _ _ _ Hconfirm) as (_ & Hc & _).
  split; [exact Hreset|]. split; [exact Hr|]. split; [exact Ha|].
  split; [|split; [exact Hl|exact Hc]].
  rewrite Ha. cbn. intros Hin.
  apply list_elem_of_singleton in Hin. discriminate Hin.
Qed.

(** A confirmation token that is neither invalid nor expired: the session
    is switched to the token's user when it belongs to someone else, the
    user is confirmed, and the outcome depends on whether the user was
    confirmed before. *)
Lemma confirm_email_valid_run (e : Env) (token : string) (w : World)
    (u : User) :
  token_status e Confirm token w = (false, false, Some u) ->
  let out := confirm_email e token w in
  let switch := if differs (Some u) w
                then [LogoutUser; LoginUser (id u)] else [] in
  out.1 = (redirect_to (or_opt (get_url e (post_confirm_view e))
                               (get_url e (post_login_view e))) w).1
  /\ session out.2 = Some (id u)
  /\ actions out.2
     = (actions w ++ switch
          ++ [ConfirmUser (id u);
              FlashNext (match confirmed_at u with
                         | Some _ => "ALREADY_CONFIRMED"
                         | None => "EMAIL_CONFIRMED"
                         end) []])%list
  /\ callbacks out.2
     = (callbacks w ++ match confirmed_at u with
                       | Some _ => []
                       | None => [_commit]
                       end)%list
  /\ (forall stamp, confirmed_at u = Some stamp -> users out.2 = users w).
Proof.
  intros Hstatus out switch. subst out switch.
  unfold confirm_email, confirm_email_token_status. step.
  rewrite Hstatus. step. unfold differs, redirect_to.
  destruct (or_opt (get_url e (post_confirm_view e))
                   (get_url e (post_login_view e))) as [target|];
    destruct (bool_decide (session w = Some (id u))) eqn:Hsession;
    destruct (confirmed_at u) as [stamp|] eqn:Hstamp; step;
    rewrite <- ?app_assoc; cbn;
    try apply bool_decide_eq_true_1 in Hsession;
    repeat split; rewrite ?app_nil_r; try done.
Qed.

Lemma token_status_within (e : Env) (p : purpose) (token : string)
    (w : World) (uid : nat) (issued_at : Z) (u : User) :
  decode e token = Some (uid, p, issued_at) ->
  users w !! uid = Some u ->
  now e - issued_at <= ttl e p ->
  token_status e p token w = (false, false, Some u).
Proof.
  intros Hdecode Hu Hage. unfold token_status. rewrite Hdecode.
  rewrite bool_decide_eq_true_2 by reflexivity. rewrite Hu.
  rewrite bool_decide_eq_false_2 by lia. reflexivity.
Qed.

Lemma token_status_beyond (e : Env) (p : purpose) (token : string)
    (w : World) (uid : nat) (issued_at : Z) (u : User) :
  decode e token = Some (uid, p, issued_at) ->
  users w !! uid = Some u ->
  now e - issued_at > ttl e p ->
  token_status e p token w = (true, false, Some u).
Proof.
  intros Hdecode Hu Hage. unfold token_status. rewrite Hdecode.
  rewrite bool_decide_eq_true_2 by reflexivity. rewrite Hu.
  rewrite bool_decide_eq_true_2 by lia. reflexivity.
Qed.

(** C8, as amended.  A confirmation token that is still within its
    time-to-live and names an identity that is already confirmed yields the
    already-confirmed outcome: the redirect of a success, the notice that
    the identity is already confirmed, neither the invalid nor the expired
    notice, no commit, and a datastore left as it was. *)
Theorem replay_within_ttl_is_already_confirmed (e : Env) (w : World)
    (token : string) (uid : nat) (issued_at : Z) (u : User) (stamp : Z) :
  actions w = [] -> callbacks w = [] ->
  decode e token = Some (uid, Confirm, issued_at) ->
  users w !! uid = Some u ->
  confirmed_at u = Some stamp ->
  now e - issued_at <= ttl e Confirm ->
  let out := confirm_email e token w in
  out.1 = (redirect_to (or_opt (get_url e (post_confirm_view e))
                               (get_url e (post_login_view e))) w).1
  /\ FlashNext "ALREADY_CONFIRMED" [] ∈ actions out.2
  /\ (FlashNext "INVALID_CONFIRMATION_TOKEN" [] ∉ actions out.2)
  /\ (forall kwargs, FlashNext "CONFIRMATION_EXPIRED" kwargs ∉ actions out.2)
  /\ callbacks out.2 = []
  /\ users out.2 = users w.
Proof.
  intros Hactions Hcallbacks Hdecode Hu Hstamp Hage out.
  pose proof (token_status_within e Confirm token w uid issued_at u
                Hdecode Hu Hage) as Hstatus.
  destruct (confirm_email_valid_run e token w u Hstatus)
    as (Hresponse & _ & Hacts & Hcalls & Husers).
  fold out in Hresponse, Hacts, Hcalls, Husers.
  rewrite Hstamp, Hactions in Hacts. rewrite Hstamp, Hcallbacks in Hcalls.
  split; [exact Hresponse|]. rewrite Hacts.
  split; [|split; [|split; [|split; [exact Hcalls|exact (Husers stamp Hstamp)]]]].
  - destruct (differs (Some u) w); cbn; set_solver.
  - intros Hin. destruct (differs (Some u) w); cbn in Hin;
      repeat (apply elem_of_cons in Hin as [Hin|Hin]; [discriminate Hin|]);
      apply elem_of_nil in Hin; exact Hin.
  - intros kwargs Hin. destruct (differs (Some u) w); cbn in Hin;
      repeat (apply elem_of_cons in Hin as [Hin|Hin]; [discriminate Hin|]);
      apply elem_of_nil in Hin; exact Hin.
Qed.

Lemma replay_within_ttl_is_already_confirmed_witness :
  FlashNext "ALREADY_CONFIRMED" []
  ∈ actions (confirm_email (env 4) "confirm-alice" (world None)).2.
Proof.
  apply (replay_within_ttl_is_already_confirmed
           (env 4) (world None) "confirm-alice" 1%nat 0 alice 3
           eq_refl eq_refl);
    vm_compute; first [reflexivity | discriminate].
Defined.

(** C8, as stated, fails: a confirmation token of an identity that is
    already confirmed, presented after its time-to-live, takes the expired
    path; new instructions are sent and the expired notice is flashed. *)
Lemma replay_after_ttl_is_expired : ~ replay_is_always_already_confirmed.
Proof.
  intros Hclaim.
  destruct (Hclaim (env 6) (world None) "confirm-alice" 1%nat 0 alice 3
              eq_refl eq_refl ltac:(vm_compute; reflexivity)
              ltac:(vm_compute; reflexivity) eq_refl)
    as (_ & _ & _ & Hnever & _).
  assert (Hstatus : token_status (env 6) Confirm "confirm-alice" (world None)
                    = (true, false, Some alice)) by (vm_compute; reflexivity).
  destruct (confirm_email_expired_resends _ _ _ _ Hstatus) as (_ & Hacts & _).
  apply (Hnever [("email", "alice@example.org"); ("within", "5 days")]).
  rewrite Hacts. cbn. set_solver.
Qed.

(** C10.  For a valid confirmation token, the session after [confirm_email]
    belongs to the token's identity; when the session belonged to someone
    else, or to nobody, the view first logs that session out and logs the
    token's identity in, and only then confirms. *)
Theorem confirmation_logs_in_the_token_identity (e : Env) (w : World)
    (token : string) (uid : nat) (issued_at : Z) (u : User) :
  decode e token = Some (uid, Confirm, issued_at) ->
  users w !! uid = Some u ->
  now e - issued_at <= ttl e Confirm ->
  let out := confirm_email e token w in
  session out.2 = Some (id u)
  /\ (session w <> Some (id u) ->
      exists flashed,
        actions out.2
        = (actions w
             ++ [LogoutUser; LoginUser (id u); ConfirmUser (id u); flashed])%list)
  /\ (session w = Some (id u) ->
      exists flashed,
        actions out.2 = (actions w ++ [ConfirmUser (id u); flashed])%list).
Proof.
  intros Hdecode Hu Hage out.
  pose proof (token_status_within e Confirm token w uid issued_at u
                Hdecode Hu Hage) as Hstatus.
  destruct (confirm_email_valid_run e token w u Hstatus)
    as (_ & Hsession & Hacts & _).
  fold out in Hsession, Hacts.
  split; [exact Hsession|]. rewrite Hacts. unfold differs. split.
  - intros Hother. rewrite bool_decide_eq_false_2 by exact Hother. cbn.
    eexists. reflexivity.
  - intros Hsame. rewrite bool_decide_eq_true_2 by exact Hsame. cbn.
    eexists. reflexivity.
Qed.

Lemma confirmation_logs_in_the_token_identity_witness :
  session (confirm_email (env 4) "confirm-bob" (world (Some 1%nat))).2
  = Some 2%nat.
Proof.
  apply (confirmation_logs_in_the_token_identity
           (env 4) (world (Some 1%nat)) "confirm-bob" 2%nat 0 bob);
    vm_compute; first [reflexivity | discriminate].
Defined.

End ViewsFacts.

(** ** Further properties of the decorators *)

Module GuardFacts.
Import Decorators Examples MoreExamples DecoratorsFacts.

(** X1.  When the request has no token in the query string, the lookup of
    [_check_token] is made with the header's value, and with [None] when the
    header is absent too. *)
Theorem header_token_is_the_fallback (c : Context) :
  args (request c) !! token_authentication_key (security c) = None ->
  (run (_check_token c)).2
  = [FindUser (ByAuthenticationToken
                 (headers (request c)
                    !! token_authentication_header (security c)))].
Proof.
  intros Hargs. rewrite check_token_run. cbn. unfold dict_get.
  rewrite Hargs.
  destruct (headers (request c) !! token_authentication_header (security c));
    reflexivity.
Qed.

Lemma header_token_is_the_fallback_witness :
  (run (_check_token (anonymous header_only_request))).2
  = [FindUser (ByAuthenticationToken (Some "secret"))].
Proof.
  apply (header_token_is_the_fallback (anonymous header_only_request)).
  vm_compute. reflexivity.
Defined.

(** X2.  [http_auth_required] calls the wrapped view exactly when the
    request carries credentials, the datastore returns a user for the user
    name, and the password context answers [True] for the request's password
    and that user's hash. *)
Theorem http_auth_grants_iff_password_verifies (c : Context) (r : Response) :
  Invoke ∈ (run (http_auth_required (view r) c)).2
  <-> exists a u,
        authorization (request c) = Some a
        /\ find_user (security c) (ByEmail (username a)) = Ok u
        /\ verify (security c) (auth_password a) (password u) = Ok true.
Proof.
  unfold run, http_auth_required. unfold mbind, eff_bind, bind at 1.
  pose proof (check_http_auth_run c) as Hrun. unfold run in Hrun.
  rewrite Hrun.
  destruct (authorization (request c)) as [a|]; cbn.
  - destruct (find_user (security c) (ByEmail (username a))) as [u|e] eqn:Hu.
    + destruct (verify (security c) (auth_password a) (password u))
        as [[|]|e] eqn:Hv; cbn.
      * split; [eauto|]. intros _. set_solver.
      * split.
        -- intros Hin.
           repeat (apply elem_of_cons in Hin as [Hin|Hin]; [discriminate Hin|]).
           apply elem_of_nil in Hin. destruct Hin.
        -- intros (a' & u' & Ha & Hu' & Hv').
           injection Ha as <-. rewrite Hu in Hu'. injection Hu' as <-.
           rewrite Hv in Hv'. discriminate Hv'.
      * split.
        -- intros Hin.
           repeat (apply elem_of_cons in Hin as [Hin|Hin]; [discriminate Hin|]).
           apply elem_of_nil in Hin. destruct Hin.
        -- intros (a' & u' & Ha & Hu' & Hv').
           injection Ha as <-. rewrite Hu in Hu'. injection Hu' as <-.
           rewrite Hv in Hv'. discriminate Hv'.
    + split.
      * intros Hin.
        repeat (apply elem_of_cons in Hin as [Hin|Hin]; [discriminate Hin|]).
        apply elem_of_nil in Hin. destruct Hin.
      * intros (a' & u' & Ha & Hu' & _).
        injection Ha as <-. rewrite Hu in Hu'. discriminate Hu'.
  - split.
    + intros Hin. apply elem_of_nil in Hin. destruct Hin.
    + intros (a' & u' & Ha & _). discriminate Ha.
Qed.

(** X3.  An exception of the password context is not caught: when the
    lookup returned a user and [verify] raises, the exception leaves
    [http_auth_required] after the lookup and the verification, and the
    wrapped view is not run. *)
Theorem verify_exception_leaves_the_guard (c : Context)
    (fn : Eff trace Response) (a : Authorization) (u : User) (e : exn) :
  authorization (request c) = Some a ->
  find_user (security c) (ByEmail (username a)) = Ok u ->
  verify (security c) (auth_password a) (password u) = Exc e ->
  run (http_auth_required fn c)
  = (Exc e, [FindUser (ByEmail (username a));
             Verify (auth_password a) (password u)]).
Proof.
  intros Ha Hu Hv. unfold run, http_auth_required.
  unfold mbind, eff_bind, bind at 1.
  pose proof (check_http_auth_run c) as Hrun. unfold run in Hrun.
  rewrite Hrun, Ha, Hu, Hv. reflexivity.
Qed.

Lemma verify_exception_leaves_the_guard_witness :
  run (http_auth_required (view page)
         {| security := strict_app; request := wrong_password_request;
            current_user := None; provides := ∅ |})
  = (Exc ValueError,
     [FindUser (ByEmail "alice@example.org");
      Verify "looking-glass" "hash-of-wonderland"]).
Proof.
  apply (verify_exception_leaves_the_guard
           {| security := strict_app; request := wrong_password_request;
              current_user := None; provides := ∅ |} (view page)
           {| username := "alice@example.org";
              auth_password := "looking-glass" |} alice ValueError);
    vm_compute; reflexivity.
Defined.

(** X4.  [http_auth_required] consults the password context only with the
    password of the request and the hash of the user the lookup returned;
    a request without credentials reaches neither the datastore nor the
    password context. *)
Theorem password_is_verified_only_for_the_found_user (c : Context)
    (r : Response) :
  (forall plaintext hash,
     Verify plaintext hash ∈ (run (http_auth_required (view r) c)).2 ->
     exists a u,
       authorization (request c) = Some a
       /\ find_user (security c) (ByEmail (username a)) = Ok u
       /\ plaintext = auth_password a /\ hash = password u)
  /\ (authorization (request c) = None ->
      run (http_auth_required (view r) c) = (Ok unauthorized, [])).
Proof.
  unfold run, http_auth_required. unfold mbind, eff_bind, bind at 1.
  unfold mbind, eff_bind, bind at 1.
  pose proof (check_http_auth_run c) as Hrun. unfold run in Hrun.
  rewrite Hrun. split.
  - intros plaintext hash.
    destruct (authorization (request c)) as [a|]; cbn.
    + destruct (find_user (security c) (ByEmail (username a)))
        as [u|e] eqn:Hu.
      * intros Hin. exists a, u. split; [reflexivity|]. split; [exact Hu|].
        destruct (verify (security c) (auth_password a) (password u))
          as [[|]|e]; cbn in Hin;
          repeat (apply elem_of_cons in Hin as [Hin|Hin];
                  [first [discriminate Hin
                         | (injection Hin as -> ->; split; reflexivity)]|]);
          apply elem_of_nil in Hin; destruct Hin.
      * cbn. intros Hin.
        repeat (apply elem_of_cons in Hin as [Hin|Hin]; [discriminate Hin|]).
        apply elem_of_nil in Hin. destruct Hin.
    + intros Hin. apply elem_of_nil in Hin. destruct Hin.
  - intros Ha. rewrite Ha. reflexivity.
Qed.

Lemma password_is_verified_only_for_the_found_user_witness :
  run (http_auth_required (view page) (anonymous bare_request))
  = (Ok unauthorized, []).
Proof.
  apply (password_is_verified_only_for_the_found_user
           (anonymous bare_request) page).
  reflexivity.
Defined.

(** *** Role guards from any point of a request *)

Lemma roles_required_all_held_from (c : Context) (role_names : list string)
    (fn : Eff trace Response) (t : trace) :
  is_authenticated c = true -> Forall (holds c) role_names ->
  roles_required role_names fn c t = fn (t ++ checks role_names)%list.
Proof.
  intros Hauth Hall. unfold roles_required. rewrite Hauth. cbn.
  unfold mbind, eff_bind, bind.
  rewrite (for_perms_all_held c role_names role_names t Hall).
  reflexivity.
Qed.

Lemma roles_required_first_missing_from (c : Context) (pre post : list string)
    (missing : string) (fn : Eff trace Response) (t : trace) :
  is_authenticated c = true -> Forall (holds c) pre -> ~ holds c missing ->
  roles_required (pre ++ missing :: post)%list fn c t
  = (Ok (redirect (denial_target c)),
     (t ++ checks pre
        ++ [Can (role_permission missing);
            LogDebug "Identity does not provide the roles: %s"
                     [(pre ++ missing :: post)%list]])%list).
Proof.
  intros Hauth Hall Hmissing. unfold roles_required. rewrite Hauth. cbn.
  unfold mbind, eff_bind, bind.
  rewrite (for_perms_first_missing c _ pre post missing t Hall Hmissing).
  reflexivity.
Qed.

Lemma checks_app (xs ys : list string) :
  checks (xs ++ ys)%list = (checks xs ++ checks ys)%list.
Proof. unfold checks. apply fmap_app. Qed.

Lemma invoke_not_denied (pre : list string) (p : Permission)
    (fmt : string) (params : list (list string)) :
  Invoke ∉ (checks pre ++ [Can p; LogDebug fmt params])%list.
Proof.
  intros Hin. apply elem_of_app in Hin as [Hin|Hin].
  - exact (invoke_not_checked pre Hin).
  - repeat (apply elem_of_cons in Hin as [Hin|Hin]; [discriminate Hin|]).
    apply elem_of_nil in Hin. destruct Hin.
Qed.

(** Whether [roles_required] calls the view, by the roles held. *)
Lemma roles_required_invokes (c : Context) (role_names : list string)
    (r : Response) :
  is_authenticated c = true ->
  Invoke ∈ (run (roles_required role_names (view r) c)).2
  <-> Forall (holds c) role_names.
Proof.
  intros Hauth.
  destruct (decide (Forall (holds c) role_names)) as [Hall|Hnot].
  - rewrite (roles_required_all_held c role_names _ Hauth Hall). cbn.
    split; [done|]. intros _. apply elem_of_app. right. set_solver.
  - destruct (first_missing_role c role_names Hnot)
      as (pre & missing & post & -> & Hpre & Hmissing).
    rewrite (roles_required_first_missing c pre post missing _
               Hauth Hpre Hmissing). cbn.
    split; [|done]. intros Hin. exfalso.
    exact (invoke_not_denied pre _ _ _ Hin).
Qed.

(** X5.  For an authenticated identity and a non-empty list of roles,
    whoever passes [roles_required] for the list passes [roles_accepted]
    for the same list. *)
Theorem required_roles_are_accepted (c : Context) (role_names : list string)
    (r : Response) :
  is_authenticated c = true ->
  role_names <> [] ->
  Invoke ∈ (run (roles_required role_names (view r) c)).2 ->
  Invoke ∈ (run (roles_accepted role_names (view r) c)).2.
Proof.
  intros Hauth Hne Hrequired.
  apply (roles_required_invokes c role_names r Hauth) in Hrequired.
  pose proof (roles_accepted_run c role_names (view r) Hauth) as Hrun.
  cbv zeta in Hrun. rewrite Hrun.
  assert (Hallows : allows (mkPermission (RoleNeed <$> role_names))
                      (provides c) = true).
  { apply (allows_any_of role_names (provides c) Hne).
    apply holds_some_intersection.
    destruct role_names as [|role rest]; [done|].
    apply Exists_cons. left. apply (Forall_inv Hrequired). }
  rewrite Hallows. cbn. set_solver.
Qed.

Lemma required_roles_are_accepted_witness :
  Invoke ∈ (run (roles_accepted ["editor"] (view page)
                   (logged_in alice bare_request))).2.
Proof.
  apply (required_roles_are_accepted (logged_in alice bare_request)
           ["editor"] page eq_refl ltac:(discriminate)).
  apply (roles_required_invokes (logged_in alice bare_request)
           ["editor"] page eq_refl).
  apply List.Forall_cons; [|apply List.Forall_nil].
  unfold holds. cbn. set_solver.
Defined.

(** X6.  Stacking two [roles_required] guards is the guard for both lists:
    for an authenticated identity the answer is the same, and the view is
    called exactly when every role of both lists is held. *)
Theorem stacked_roles_required_is_conjunctive (c : Context)
    (outer inner : list string) (r : Response) :
  is_authenticated c = true ->
  let stacked := run (roles_required outer
                        (roles_required inner (view r) c) c) in
  let flat := run (roles_required (outer ++ inner)%list (view r) c) in
  stacked.1 = flat.1
  /\ (Invoke ∈ stacked.2 <-> Invoke ∈ flat.2)
  /\ (Invoke ∈ stacked.2 <-> Forall (holds c) (outer ++ inner)%list).
Proof.
  intros Hauth stacked flat.
  assert (Hflat : Invoke ∈ flat.2 <-> Forall (holds c) (outer ++ inner)%list)
    by (apply roles_required_invokes; exact Hauth).
  enough (Hmain : stacked.1 = flat.1
                  /\ (Invoke ∈ stacked.2
                      <-> Forall (holds c) (outer ++ inner)%list)).
  { destruct Hmain as [Hfst Hiff]. split; [exact Hfst|].
    split; [|exact Hiff]. rewrite Hiff, Hflat. reflexivity. }
  subst stacked flat. unfold run. rewrite Forall_app.
  destruct (decide (Forall (holds c) outer)) as [Houter|Hnot].
  - rewrite (roles_required_all_held_from c outer _ [] Hauth Houter).
    destruct (decide (Forall (holds c) inner)) as [Hinner|Hnot].
    + rewrite (roles_required_all_held_from c inner _ _ Hauth Hinner).
      rewrite (roles_required_all_held_from c (outer ++ inner) _ []
                 Hauth ltac:(apply Forall_app; done)).
      rewrite checks_app, app_assoc. cbn. split; [reflexivity|].
      split; [done|]. intros _. apply elem_of_app. right.
      apply list_elem_of_singleton. reflexivity.
    + destruct (first_missing_role c inner Hnot)
        as (pre & missing & post & -> & Hpre & Hmissing).
      rewrite (roles_required_first_missing_from c pre post missing _ _
                 Hauth Hpre Hmissing).
      rewrite (app_assoc outer pre (missing :: post)).
      rewrite (roles_required_first_missing_from c (outer ++ pre) post missing
                 _ [] Hauth ltac:(apply Forall_app; done) Hmissing).
      cbn. split; [reflexivity|]. split.
      * intros Hin. exfalso. apply elem_of_app in Hin as [Hin|Hin].
        -- exact (invoke_not_checked outer Hin).
        -- exact (invoke_not_denied pre _ _ _ Hin).
      * intros [_ Hinner]. exfalso. apply Hnot. exact Hinner.
  - destruct (first_missing_role c outer Hnot)
      as (pre & missing & post & -> & Hpre & Hmissing).
    rewrite (roles_required_first_missing_from c pre post missing _ []
               Hauth Hpre Hmissing).
    rewrite <- (app_assoc pre (missing :: post) inner). cbn [app].
    rewrite (roles_required_first_missing_from c pre (post ++ inner) missing
               _ [] Hauth Hpre Hmissing).
    cbn. split; [reflexivity|]. split.
    + intros Hin. exfalso. exact (invoke_not_denied pre _ _ _ Hin).
    + intros [Houter _]. exfalso. apply Hnot. exact Houter.
Qed.

Lemma stacked_roles_required_is_conjunctive_witness :
  (run (roles_required ["editor"]
          (roles_required ["admin"] (view page)
             (logged_in alice bare_request))
          (logged_in alice bare_request))).1
  = (run (roles_required ["editor"; "admin"] (view page)
            (logged_in alice bare_request))).1.
Proof.
  apply (stacked_roles_required_is_conjunctive
           (logged_in alice bare_request) ["editor"] ["admin"] page eq_refl).
Defined.

(** X7.  Whether [roles_required] lets an authenticated identity through
    depends on the set of required roles only: two lists with the same
    members, in any order and with any repetition, decide alike. *)
Theorem roles_required_decides_by_the_set_of_roles (c : Context)
    (role_names role_names' : list string) (r : Response) :
  is_authenticated c = true ->
  (forall role, role ∈ role_names <-> role ∈ role_names') ->
  (Invoke ∈ (run (roles_required role_names (view r) c)).2
   <-> Invoke ∈ (run (roles_required role_names' (view r) c)).2)
  /\ (run (roles_required role_names (view r) c)).1
     = (run (roles_required role_names' (view r) c)).1.
Proof.
  intros Hauth Hsame.
  assert (Hall : Forall (holds c) role_names <-> Forall (holds c) role_names').
  { rewrite !Forall_forall. split; intros H role Hin; apply H, Hsame, Hin. }
  split.
  - rewrite !roles_required_invokes by exact Hauth. exact Hall.
  - destruct (decide (Forall (holds c) role_names)) as [Hheld|Hnot].
    + rewrite (roles_required_all_held c role_names _ Hauth Hheld).
      rewrite (roles_required_all_held c role_names' _ Hauth
                 (proj1 Hall Hheld)).
      reflexivity.
    + assert (Hnot' : ~ Forall (holds c) role_names') by (rewrite <- Hall; done).
      destruct (first_missing_role c role_names Hnot)
        as (pre & missing & post & -> & Hpre & Hmissing).
      destruct (first_missing_role c role_names' Hnot')
        as (pre' & missing' & post' & -> & Hpre' & Hmissing').
      rewrite (roles_required_first_missing c pre post missing _
                 Hauth Hpre Hmissing).
      rewrite (roles_required_first_missing c pre' post' missing' _
                 Hauth Hpre' Hmissing').
      reflexivity.
Qed.

Lemma roles_required_decides_by_the_set_of_roles_witness :
  (run (roles_required ["admin"; "editor"] (view page)
          (logged_in alice bare_request))).1
  = (run (roles_required ["editor"; "admin"; "editor"] (view page)
            (logged_in alice bare_request))).1.
Proof.
  apply (roles_required_decides_by_the_set_of_roles
           (logged_in alice bare_request)
           ["admin"; "editor"] ["editor"; "admin"; "editor"] page eq_refl).
  intros role. rewrite !elem_of_cons, !elem_of_nil. tauto.
Defined.

End GuardFacts.

(** ** Further properties of the token views *)

Module TokenViewFacts.
Import Views Examples ViewsFacts.

(** The status of a token has one of three shapes. *)
Lemma token_status_cases (e : Env) (p : purpose) (token : string) (w : World) :
  token_status e p token w = (false, true, None)
  \/ (exists u, token_status e p token w = (true, false, Some u))
  \/ (exists u, token_status e p token w = (false, false, Some u)).
Proof.
  unfold token_status.
  destruct (decode e token) as [[[uid p'] issued_at]|]; [|by left].
  case_bool_decide; [|by left].
  destruct (users w !! uid) as [u|]; [|by left].
  case_bool_decide; [right; left|right; right]; eauto.
Qed.

(** The status reads the users of the world only. *)
Lemma token_status_users (e : Env) (p : purpose) (token : string)
    (w w' : World) :
  users w' = users w ->
  token_status e p token w' = token_status e p token w.
Proof. intros Husers. unfold token_status. rewrite Husers. reflexivity. Qed.

Lemma token_login_valid_run (e : Env) (token : string) (w : World) (u : User) :
  token_status e Login token w = (false, false, Some u) ->
  token_login e token w
  = (Ok (redirect (plain (get_post_login_redirect e))),
     {| users := users w; session := Some (id u);
        actions := (actions w
                      ++ [LoginUser (id u);
                          FlashNext "PASSWORDLESS_LOGIN_SUCCESSFUL" []])%list;
        callbacks := (callbacks w ++ [_commit])%list |}).
Proof.
  intros Hstatus. unfold token_login, login_token_status. step.
  rewrite Hstatus. step. rewrite <- app_assoc. reflexivity.
Qed.

(** X8.  A login token within its time-to-live logs its user in: the
    session becomes the token's user, one commit is registered, the datastore
    is left as it was and the answer is the post-login redirect.  The token
    is not used up: its status afterwards is what it was before. *)
Theorem valid_login_token_logs_its_user_in (e : Env) (w : World)
    (token : string) (uid : nat) (issued_at : Z) (u : User) :
  decode e token = Some (uid, Login, issued_at) ->
  users w !! uid = Some u ->
  now e - issued_at <= ttl e Login ->
  let out := token_login e token w in
  out.1 = Ok (redirect (plain (get_post_login_redirect e)))
  /\ session out.2 = Some (id u)
  /\ actions out.2
     = (actions w ++ [LoginUser (id u);
                      FlashNext "PASSWORDLESS_LOGIN_SUCCESSFUL" []])%list
  /\ callbacks out.2 = (callbacks w ++ [_commit])%list
  /\ users out.2 = users w
  /\ token_status e Login token out.2 = (false, false, Some u).
Proof.
  intros Hdecode Hu Hage out.
  pose proof (token_status_within e Login token w uid issued_at u
                Hdecode Hu Hage) as Hstatus.
  subst out. rewrite (token_login_valid_run e token w u Hstatus). cbn.
  repeat split. rewrite <- Hstatus. apply token_status_users. reflexivity.
Qed.

Lemma valid_login_token_logs_its_user_in_witness :
  session (token_login (env 4) "login-bob" (world None)).2 = Some 2%nat.
Proof.
  apply (valid_login_token_logs_its_user_in
           (env 4) (world None) "login-bob" 2%nat 0 bob);
    vm_compute; first [reflexivity | discriminate].
Defined.

Lemma token_login_invalid_run (e : Env) (token : string) (w : World) :
  token_status e Login token w = (false, true, None) ->
  token_login e token w
  = (Ok (redirect (plain (url_for e "login"))),
     {| users := users w; session := session w;
        actions := (actions w ++ [FlashNext "INVALID_LOGIN_TOKEN" []])%list;
        callbacks := callbacks w |}).
Proof.
  intros Hstatus. unfold token_login, login_token_status. step.
  rewrite Hstatus. step. reflexivity.
Qed.

Lemma confirm_email_invalid_run (e : Env) (token : string) (w : World) :
  token_status e Confirm token w = (false, true, None) ->
  confirm_email e token w
  = redirect_to (or_opt (get_url e (confirm_error_view e))
                        (Some (url_for e "send_confirmation")))
      {| users := users w; session := session w;
         actions := (actions w
                       ++ [FlashNext "INVALID_CONFIRMATION_TOKEN" []])%list;
         callbacks := callbacks w |}.
Proof.
  intros Hstatus. unfold confirm_email, confirm_email_token_status. step.
  rewrite Hstatus. step. reflexivity.
Qed.

Lemma reset_password_invalid_run (e : Env) (token : string) (w : World) :
  token_status e Reset token w = (false, true, None) ->
  reset_password e token w
  = (Ok (redirect (plain (url_for e "forgot_password"))),
     {| users := users w; session := session w;
        actions := (actions w
                      ++ [FlashNext "INVALID_RESET_PASSWORD_TOKEN" []])%list;
        callbacks := callbacks w |}).
Proof.
  intros Hstatus. unfold reset_password, reset_password_token_status. step.
  rewrite Hstatus. step. reflexivity.
Qed.

Lemma redirect_to_state (target : option string) (w : World) :
  (redirect_to target w).2 = w.
Proof. destruct target; reflexivity. Qed.

(** X9.  A token that does not decode changes nothing in any of the three
    token views: the session, the datastore and the registered callbacks
    stay as they were, the only action is the flash of the invalid-token
    notice, and nobody is logged in, confirmed or mailed. *)
Theorem undecodable_token_changes_nothing (e : Env) (w : World)
    (token : string) :
  decode e token = None ->
  (let out := token_login e token w in
   out.1 = Ok (redirect (plain (url_for e "login")))
   /\ session out.2 = session w /\ users out.2 = users w
   /\ callbacks out.2 = callbacks w
   /\ actions out.2
      = (actions w ++ [FlashNext "INVALID_LOGIN_TOKEN" []])%list)
  /\ (let out := confirm_email e token w in
      session out.2 = session w /\ users out.2 = users w
      /\ callbacks out.2 = callbacks w
      /\ actions out.2
         = (actions w ++ [FlashNext "INVALID_CONFIRMATION_TOKEN" []])%list)
  /\ (let out := reset_password e token w in
      out.1 = Ok (redirect (plain (url_for e "forgot_password")))
      /\ session out.2 = session w /\ users out.2 = users w
      /\ callbacks out.2 = callbacks w
      /\ actions out.2
         = (actions w ++ [FlashNext "INVALID_RESET_PASSWORD_TOKEN" []])%list).
Proof.
  intros Hdecode.
  assert (Hstatus : forall p, token_status e p token w = (false, true, None)).
  { intros p. unfold token_status. rewrite Hdecode. reflexivity. }
  split; [|split].
  - cbv zeta. rewrite (token_login_invalid_run e token w (Hstatus Login)).
    repeat split.
  - cbv zeta. rewrite (confirm_email_invalid_run e token w (Hstatus Confirm)).
    rewrite redirect_to_state. repeat split.
  - cbv zeta. rewrite (reset_password_invalid_run e token w (Hstatus Reset)).
    repeat split.
Qed.

Lemma undecodable_token_changes_nothing_witness :
  session (token_login (env 4) "forged" (world (Some 1%nat))).2 = Some 1%nat.
Proof.
  pose proof (undecodable_token_changes_nothing
                (env 4) (world (Some 1%nat)) "forged" eq_refl) as H.
  destruct H as [H _]. cbv zeta in H. destruct H as (_ & H & _). exact H.
Defined.

Lemma reset_password_valid_run (e : Env) (token : string) (w : World)
    (u : User) :
  token_status e Reset token w = (false, false, Some u) ->
  reset_password e token w
  = if validate_on_submit e then
      redirect_to (or_opt (get_url e (post_reset_view e))
                          (get_url e (post_login_view e)))
        {| users := users w; session := Some (id u);
           actions := (actions w
                         ++ [UpdatePassword (id u) (form_password e);
                             FlashNext "PASSWORD_RESET" [];
                             LoginUser (id u)])%list;
           callbacks := (callbacks w ++ [_commit])%list |}
    else (Ok (render_template (current_template e)), w).
Proof.
  intros Hstatus. unfold reset_password, reset_password_token_status. step.
  rewrite Hstatus. step.
  destruct (validate_on_submit e); step; [|reflexivity].
  rewrite <- !app_assoc. reflexivity.
Qed.

Lemma reset_password_expired_run (e : Env) (token : string) (w : World)
    (u : User) :
  token_status e Reset token w = (true, false, Some u) ->
  reset_password e token w
  = (Ok (redirect (plain (url_for e "forgot_password"))),
     {| users := users w; session := session w;
        actions := (actions w
                      ++ [FlashNext "PASSWORD_RESET_EXPIRED"
                            [("email", email u);
                             ("within", reset_password_within e)]])%list;
        callbacks := callbacks w |}).
Proof.
  intros Hstatus. unfold reset_password, reset_password_token_status. step.
  rewrite Hstatus. step. reflexivity.
Qed.

(** X10.  [reset_password] updates a password exactly when the token is
    neither invalid nor expired and the form validates; then it is the
    password of the token's user that is set to the form's, one commit is
    registered and that user is logged in.  A valid token with a form that
    does not validate only shows the form: nothing changes. *)
Theorem password_is_reset_only_with_valid_token_and_form (e : Env)
    (token : string) (w : World) :
  actions w = [] ->
  let out := reset_password e token w in
  ((exists uid new_password, UpdatePassword uid new_password ∈ actions out.2)
   <-> validate_on_submit e = true
       /\ exists u, token_status e Reset token w = (false, false, Some u))
  /\ (forall u,
        token_status e Reset token w = (false, false, Some u) ->
        validate_on_submit e = true ->
        actions out.2 = [UpdatePassword (id u) (form_password e);
                         FlashNext "PASSWORD_RESET" [];
                         LoginUser (id u)]
        /\ session out.2 = Some (id u)
        /\ callbacks out.2 = (callbacks w ++ [_commit])%list)
  /\ (forall u,
        token_status e Reset token w = (false, false, Some u) ->
        validate_on_submit e = false ->
        out = (Ok (render_template (current_template e)), w)).
Proof.
  intros Hfresh out. subst out. split; [|split].
  - destruct (token_status_cases e Reset token w)
      as [Hinvalid|[[u Hexpired]|[u Hvalid]]].
    + rewrite (reset_password_invalid_run e token w Hinvalid). cbn.
      rewrite Hfresh. cbn. split.
      * intros (uid & pw & Hin).
        apply list_elem_of_singleton in Hin. discriminate Hin.
      * intros (_ & u & Hu). rewrite Hinvalid in Hu. discriminate Hu.
    + rewrite (reset_password_expired_run e token w u Hexpired). cbn.
      rewrite Hfresh. cbn. split.
      * intros (uid & pw & Hin).
        apply list_elem_of_singleton in Hin. discriminate Hin.
      * intros (_ & u' & Hu). rewrite Hexpired in Hu. discriminate Hu.
    + rewrite (reset_password_valid_run e token w u Hvalid).
      destruct (validate_on_submit e).
      * rewrite redirect_to_state. cbn. rewrite Hfresh. cbn. split.
        -- intros _. split; [reflexivity|]. eauto.
        -- intros _. exists (id u), (form_password e).
           apply elem_of_cons. left. reflexivity.
      * cbn. rewrite Hfresh. split.
        -- intros (uid & pw & Hin). apply elem_of_nil in Hin. destruct Hin.
        -- intros [Hv _]. discriminate Hv.
  - intros u Hvalid Hform.
    rewrite (reset_password_valid_run e token w u Hvalid), Hform.
    rewrite redirect_to_state. cbn. rewrite Hfresh. repeat split.
  - intros u Hvalid Hform.
    rewrite (reset_password_valid_run e token w u Hvalid), Hform.
    reflexivity.
Qed.

Lemma password_is_reset_only_with_valid_token_and_form_witness :
  reset_password (env 4) "reset-bob" (world None)
  = (Ok (render_template "security/reset_password.html"), world None).
Proof.
  pose proof (password_is_reset_only_with_valid_token_and_form
                (env 4) "reset-bob" (world None) eq_refl) as H.
  cbv zeta in H. destruct H as (_ & _ & H).
  apply (H bob); vm_compute; reflexivity.
Defined.

Lemma confirm_email_first_run (e : Env) (token : string) (w : World)
    (u : User) :
  token_status e Confirm token w = (false, false, Some u) ->
  confirmed_at u = None ->
  let out := confirm_email e token w in
  users out.2
  = <[id u := {| id := id u; email := email u; password := password u;
                 authentication_token := authentication_token u;
                 roles := roles u; confirmed_at := Some (now e) |}]> (users w)
  /\ callbacks out.2 = (callbacks w ++ [_commit])%list
  /\ session out.2 = Some (id u).
Proof.
  intros Hstatus Hstamp out. subst out.
  unfold confirm_email, confirm_email_token_status. step.
  rewrite Hstatus. step. unfold differs, redirect_to.
  rewrite Hstamp.
  destruct (or_opt (get_url e (post_confirm_view e))
                   (get_url e (post_login_view e))) as [target|];
    destruct (bool_decide (session w = Some (id u))) eqn:Hsession; step;
    try apply bool_decide_eq_true_1 in Hsession;
    repeat split; try done.
Qed.

(** X11.  Confirming twice commits once.  The first presentation of a
    valid confirmation token of an unconfirmed user stamps the user with the
    current time and registers a commit; presenting the same token again
    changes neither the datastore nor the registered callbacks, and flashes
    that the user is already confirmed. *)
Theorem confirming_twice_commits_once (e : Env) (w : World) (token : string)
    (issued_at : Z) (u : User) :
  decode e token = Some (id u, Confirm, issued_at) ->
  users w !! id u = Some u ->
  confirmed_at u = None ->
  now e - issued_at <= ttl e Confirm ->
  let first := confirm_email e token w in
  let second := confirm_email e token first.2 in
  (confirmed_at <$> users first.2 !! id u) = Some (Some (now e))
  /\ callbacks first.2 = (callbacks w ++ [_commit])%list
  /\ users second.2 = users first.2
  /\ callbacks second.2 = callbacks first.2
  /\ actions second.2
     = (actions first.2
          ++ [ConfirmUser (id u); FlashNext "ALREADY_CONFIRMED" []])%list.
Proof.
  intros Hdecode Hu Hstamp Hage first second.
  pose proof (token_status_within e Confirm token w (id u) issued_at u
                Hdecode Hu Hage) as Hstatus.
  destruct (confirm_email_first_run e token w u Hstatus Hstamp)
    as (Husers & Hcalls & Hsession).
  fold first in Husers, Hcalls, Hsession.
  set (u' := {| id := id u; email := email u; password := password u;
                authentication_token := authentication_token u;
                roles := roles u; confirmed_at := Some (now e) |}) in *.
  assert (Hu' : users first.2 !! id u = Some u').
  { rewrite Husers. apply lookup_insert_eq. }
  pose proof (token_status_within e Confirm token first.2 (id u) issued_at u'
                Hdecode Hu' Hage) as Hstatus'.
  destruct (confirm_email_valid_run e token first.2 u' Hstatus')
    as (_ & _ & Hacts & Hcalls' & Husers').
  fold second in Hacts, Hcalls', Husers'.
  split; [rewrite Hu'; reflexivity|]. split; [exact Hcalls|].
  split; [exact (Husers' (now e) eq_refl)|].
  split; [rewrite Hcalls'; cbn; apply app_nil_r|].
  rewrite Hacts. unfold differs. cbn.
  rewrite (bool_decide_eq_true_2 _ Hsession). reflexivity.
Qed.

Lemma confirming_twice_commits_once_witness :
  callbacks (confirm_email (env 4) "confirm-bob"
               (confirm_email (env 4) "confirm-bob" (world None)).2).2
  = callbacks (confirm_email (env 4) "confirm-bob" (world None)).2.
Proof.
  pose proof (confirming_twice_commits_once
                (env 4) (world None) "confirm-bob" 0 bob) as H.
  cbv zeta in H.
  destruct H as (_ & _ & _ & H & _);
    [vm_compute; reflexivity | vm_compute; reflexivity | reflexivity
    | vm_compute; discriminate | exact H].
Defined.

End TokenViewFacts.

(** ** Properties of logout and of the form views *)

Module FormViewFacts.
Import Views Examples FormViews FormExamples ViewsFacts TokenViewFacts.

Lemma logout_run (e : Env) (request_args : gmap string string)
    (post_logout_view : option string) (w : World) :
  logout e request_args post_logout_view w
  = redirect_to (or_opt (request_args !! "next") (get_url e post_logout_view))
      {| users := users w; session := None;
         actions := (actions w ++ match session w with
                                  | Some _ => [LogoutUser]
                                  | None => []
                                  end)%list;
         callbacks := callbacks w |}.
Proof.
  unfold logout. step. unfold dict_get.
  assert (Hnext : match request_args !! "next" with
                  | Some v => Some v
                  | None => None
                  end = request_args !! "next")
    by (destruct (request_args !! "next"); reflexivity).
  rewrite Hnext. destruct w as [us [uid|] acts calls]; step.
  - reflexivity.
  - rewrite app_nil_r. reflexivity.
Qed.

(** X12.  After [logout] nobody is logged in; [logout_user] is called only
    when somebody was.  The datastore and the registered callbacks are left
    alone, and the answer is the redirect to the request's [next] argument,
    or to the post-logout view when the argument is missing or empty. *)
Theorem logout_leaves_an_anonymous_session (e : Env)
    (request_args : gmap string string) (post_logout_view : option string)
    (w : World) :
  let out := logout e request_args post_logout_view w in
  session out.2 = None
  /\ actions out.2
     = (actions w ++ match session w with
                     | Some _ => [LogoutUser]
                     | None => []
                     end)%list
  /\ users out.2 = users w
  /\ callbacks out.2 = callbacks w
  /\ out.1 = (redirect_to (or_opt (request_args !! "next")
                                  (get_url e post_logout_view)) w).1.
Proof.
  intros out. subst out. rewrite logout_run.
  destruct (or_opt (request_args !! "next") (get_url e post_logout_view));
    repeat split.
Qed.

(** X13.  [logout] follows the [next] argument wherever it points: a
    non-empty [next] is the redirect target as it stands, and the post-logout
    view is not consulted. *)
Theorem logout_redirects_to_next (e : Env) (request_args : gmap string string)
    (post_logout_view : option string) (w : World) (target : string) :
  request_args !! "next" = Some target ->
  target <> "" ->
  (logout e request_args post_logout_view w).1
  = Ok (redirect (plain target)).
Proof.
  intros Hnext Hnonempty. rewrite logout_run, Hnext. unfold or_opt, truthy.
  destruct (String.eqb target "") eqn:Heq.
  - apply String.eqb_eq in Heq. contradiction.
  - reflexivity.
Qed.

Lemma logout_redirects_to_next_witness :
  (logout (env 4) {[ "next" := "http://elsewhere.example/" ]} (Some "/")
     (world (Some 1%nat))).1
  = Ok (redirect (plain "http://elsewhere.example/")).
Proof.
  apply (logout_redirects_to_next (env 4)
           {[ "next" := "http://elsewhere.example/" ]} (Some "/")
           (world (Some 1%nat)) "http://elsewhere.example/").
  - vm_compute. reflexivity.
  - discriminate.
Defined.

(** *** The JSON rendering *)

(** Unfold the sequencing of the form views down to state passing. *)
Ltac form_step :=
  unfold json_or_template, _render_json, login_user_remember,
    change_user_password, lift_world, leave, field;
  step.

Lemma render_json_run (site : Site) (form : Form) (include_auth_token : bool)
    (s : Stage) :
  _render_json site form include_auth_token s
  = (match errors form, user form with
     | _ :: _, _ => Ok (Jsonify (errors_document form))
     | [], Some u => Ok (Jsonify (user_document site u include_auth_token))
     | [], None => Exc AttributeError
     end,
     noted s [Print form]).
Proof.
  unfold noted, errors_document, user_document. form_step.
  destruct (errors form) as [|err errs]; cbn.
  - destruct (user form) as [u|]; [|reflexivity].
    destruct include_auth_token; reflexivity.
  - rewrite bool_decide_eq_true_2 by lia. reflexivity.
Qed.

(** X14.  [_render_json] answers a form with errors with code 400 and the
    errors alone, neither user id nor authentication token, whatever
    [include_auth_token]; a form without errors with code 200 and the
    user's id, and with the authentication token exactly when asked for.  A
    form with neither errors nor user makes it raise.  Each call prints the
    form and leaves the rest of the state alone. *)
Theorem render_json_reports_errors_or_user (site : Site) (form : Form)
    (include_auth_token : bool) (s : Stage) :
  let out := _render_json site form include_auth_token s in
  (errors form <> [] ->
   out.1 = Ok (Jsonify (JObj [("meta", JObj [("code", JNum 400)]);
                             ("response",
                              JObj [("errors", errors_json (errors form))])])))
  /\ (forall u, errors form = [] -> user form = Some u ->
      out.1
      = Ok (Jsonify
              (JObj [("meta", JObj [("code", JNum 200)]);
                     ("response",
                      JObj [("user",
                             JObj (("id", JStr (pretty (id u)))
                                     :: if include_auth_token
                                        then [("authentication_token",
                                               JStr (get_auth_token site u))]
                                        else []))])])))
  /\ (errors form = [] -> user form = None -> out.1 = Exc AttributeError)
  /\ out.2 = {| store := store s; logged_in := logged_in s;
                notes := (notes s ++ [Print form])%list;
                registered := registered s |}.
Proof.
  intros out. subst out. rewrite render_json_run. cbn.
  split; [|split; [|split]].
  - intros Hne. unfold errors_document.
    destruct (errors form); [done|reflexivity].
  - intros u -> ->. reflexivity.
  - intros -> ->. reflexivity.
  - reflexivity.
Qed.

Lemma render_json_reports_errors_or_user_witness :
  (_render_json (site (env 4) rejected_form None true) rejected_form true
     (stage None)).1
  = Ok (Jsonify
          (JObj [("meta", JObj [("code", JNum 400)]);
                 ("response",
                  JObj [("errors",
                         JObj [("email",
                                JList [JStr "Email not provided"])])])])).
Proof.
  pose proof (render_json_reports_errors_or_user
                (site (env 4) rejected_form None true) rejected_form true
                (stage None)) as H.
  cbv zeta in H. destruct H as (H & _). apply H. discriminate.
Defined.

(** *** The form views *)

Lemma noted_nil (s : Stage) : noted s [] = s.
Proof. destruct s. unfold noted. cbn. rewrite app_nil_r. reflexivity. Qed.

Lemma noted_noted (s : Stage) (ns ms : list note) :
  noted (noted s ns) ms = noted s (ns ++ ms)%list.
Proof. unfold noted. cbn. rewrite app_assoc. reflexivity. Qed.

Lemma json_or_template_run (site : Site) (form : Form)
    (include_auth_token : bool) (s : Stage) :
  json_or_template site form include_auth_token s
  = if json_truthy (request_json site)
    then _render_json site form include_auth_token s
    else (Ok (Page (render_template (current_template (site_env site)))), s).
Proof.
  unfold json_or_template. destruct (json_truthy (request_json site));
    reflexivity.
Qed.

Lemma json_or_template_state (site : Site) (form : Form)
    (include_auth_token : bool) (s : Stage) :
  (json_or_template site form include_auth_token s).2
  = noted s (if json_truthy (request_json site) then [Print form] else []).
Proof.
  rewrite json_or_template_run.
  destruct (json_truthy (request_json site)).
  - rewrite render_json_run. reflexivity.
  - rewrite noted_nil. reflexivity.
Qed.

Lemma passwordless_login_run (site : Site) (s : Stage) (u : User) :
  user (current_form site) = Some u ->
  passwordless_login site s
  = json_or_template site (current_form site) false
      (noted s (sent site (SendLoginInstructions (id u)) "LOGIN_EMAIL_SENT" u)).
Proof.
  intros Hu. unfold passwordless_login, sent. rewrite Hu.
  unfold send_login_instructions.
  destruct (validate_on_submit (site_env site));
    [destruct (json_is_none (request_json site))|];
    unfold noted; form_step; rewrite <- ?app_assoc, ?app_nil_r;
    try reflexivity.
  destruct s; reflexivity.
Qed.

Lemma send_confirmation_run (site : Site) (s : Stage) (u : User) :
  user (current_form site) = Some u ->
  send_confirmation site s
  = json_or_template site (current_form site) false
      (noted s (sent site (SendConfirmationInstructions (id u))
                  "CONFIRMATION_REQUEST" u)).
Proof.
  intros Hu. unfold send_confirmation, sent. rewrite Hu.
  unfold send_confirmation_instructions.
  destruct (validate_on_submit (site_env site));
    [destruct (json_is_none (request_json site))|];
    unfold noted; form_step; rewrite <- ?app_assoc, ?app_nil_r;
    try reflexivity.
  destruct s; reflexivity.
Qed.

Lemma forgot_password_run (site : Site) (s : Stage) (u : User) :
  user (current_form site) = Some u ->
  forgot_password site s
  = json_or_template site (current_form site) false
      (noted s (sent site (SendResetPasswordInstructions (id u))
                  "PASSWORD_RESET_REQUEST" u)).
Proof.
  intros Hu. unfold forgot_password, sent. rewrite Hu.
  unfold send_reset_password_instructions.
  destruct (validate_on_submit (site_env site));
    [destruct (json_is_none (request_json site))|];
    unfold noted; form_step; rewrite <- ?app_assoc, ?app_nil_r;
    try reflexivity.
  destruct s; reflexivity.
Qed.

Lemma in_noted_sent (site : Site) (s : Stage) (sender : action)
    (key : string) (u : User) (form : Form) (b : bool) :
  notes s = [] ->
  (forall k kw, sender <> FlashNext k kw) ->
  Did sender
  ∈ notes (json_or_template site form b (noted s (sent site sender key u))).2
  <-> validate_on_submit (site_env site) = true.
Proof.
  intros Hfresh Hsender. rewrite json_or_template_state, noted_noted.
  unfold noted, sent. cbn. rewrite Hfresh. cbn.
  destruct (validate_on_submit (site_env site)).
  - split; [done|]. intros _. apply elem_of_cons. left. reflexivity.
  - split; [|discriminate]. intros Hin. exfalso.
    destruct (json_truthy (request_json site)); cbn in Hin;
      repeat (apply elem_of_cons in Hin as [Hin|Hin]; [discriminate Hin|]);
      apply elem_of_nil in Hin; exact Hin.
Qed.

Lemma sender_view_frame (site : Site) (s : Stage) (form : Form) (b : bool)
    (ns : list note) :
  let out := json_or_template site form b (noted s ns) in
  store out.2 = store s /\ logged_in out.2 = logged_in s
  /\ registered out.2 = registered s.
Proof. cbv zeta. rewrite json_or_template_state. repeat split. Qed.

(** X15.  [passwordless_login], [send_confirmation] and [forgot_password]
    send their instructions to the form's user exactly when the form
    validates, and none of them touches the session, the datastore or the
    registered callbacks. *)
Theorem instructions_are_sent_iff_form_validates (site : Site) (s : Stage)
    (u : User) :
  user (current_form site) = Some u ->
  notes s = [] ->
  (Did (SendLoginInstructions (id u)) ∈ notes (passwordless_login site s).2
   <-> validate_on_submit (site_env site) = true)
  /\ (Did (SendConfirmationInstructions (id u))
      ∈ notes (send_confirmation site s).2
      <-> validate_on_submit (site_env site) = true)
  /\ (Did (SendResetPasswordInstructions (id u))
      ∈ notes (forgot_password site s).2
      <-> validate_on_submit (site_env site) = true)
  /\ (forall out,
        out ∈ [passwordless_login site s; send_confirmation site s;
               forgot_password site s] ->
        store out.2 = store s /\ logged_in out.2 = logged_in s
        /\ registered out.2 = registered s).
Proof.
  intros Hu Hfresh.
  rewrite (passwordless_login_run site s u Hu),
    (send_confirmation_run site s u Hu), (forgot_password_run site s u Hu).
  split; [|split; [|split]].
  - apply in_noted_sent; [exact Hfresh|discriminate].
  - apply in_noted_sent; [exact Hfresh|discriminate].
  - apply in_noted_sent; [exact Hfresh|discriminate].
  - intros out Hin.
    repeat (apply elem_of_cons in Hin as [->|Hin];
            [apply sender_view_frame|]).
    apply elem_of_nil in Hin. destruct Hin.
Qed.

Lemma instructions_are_sent_iff_form_validates_witness :
  Did (SendResetPasswordInstructions 1)
  ∈ notes (forgot_password (site (submitted_env 4) alice_form None true)
             (stage None)).2.
Proof.
  pose proof (instructions_are_sent_iff_form_validates
                (site (submitted_env 4) alice_form None true) (stage None)
                alice eq_refl eq_refl) as H.
  destruct H as (_ & _ & H & _). apply H. reflexivity.
Defined.

(** X16.  A JSON body that is present but falsy (an empty object, an empty
    list, zero, the empty string) falls between the two tests of the views
    that send instructions: with a form that validates the instructions are
    sent, but no notice is flashed, since the body is not [None], and the
    answer is the template page, not JSON, since the body is not truthy. *)
Theorem falsy_json_body_gets_the_page_without_flash (site : Site) (s : Stage)
    (u : User) :
  user (current_form site) = Some u ->
  validate_on_submit (site_env site) = true ->
  json_is_none (request_json site) = false ->
  json_truthy (request_json site) = false ->
  let page := Ok (Page (render_template (current_template (site_env site)))) in
  passwordless_login site s
  = (page, noted s [Did (SendLoginInstructions (id u))])
  /\ send_confirmation site s
     = (page, noted s [Did (SendConfirmationInstructions (id u))])
  /\ forgot_password site s
     = (page, noted s [Did (SendResetPasswordInstructions (id u))]).
Proof.
  intros Hu Hvalid Hnone Htruthy page.
  rewrite (passwordless_login_run site s u Hu),
    (send_confirmation_run site s u Hu), (forgot_password_run site s u Hu).
  rewrite !json_or_template_run, Htruthy. unfold sent.
  rewrite Hvalid, Hnone. repeat split.
Qed.

Lemma falsy_json_body_gets_the_page_without_flash_witness :
  forgot_password (site (submitted_env 4) alice_form (Some (JObj [])) true)
    (stage None)
  = (Ok (Page (render_template "security/login.html")),
     noted (stage None) [Did (SendResetPasswordInstructions 1)]).
Proof.
  apply (falsy_json_body_gets_the_page_without_flash
           (site (submitted_env 4) alice_form (Some (JObj [])) true)
           (stage None) alice); reflexivity.
Defined.

Lemma login_run (site : Site) (s : Stage) (u : User) :
  user (current_form site) = Some u ->
  login site s
  = if validate_on_submit (site_env site) then
      let s1 := {| store := store s; logged_in := Some (id u);
                   notes := (notes s
                               ++ [LoginUserRemember (id u)
                                     (remember (current_form site))])%list;
                   registered := (registered s ++ [_commit])%list |} in
      if json_truthy (request_json site)
      then _render_json site (current_form site) true s1
      else (Ok (Page (redirect
                        (plain (get_post_login_redirect (site_env site))))),
            s1)
    else json_or_template site (current_form site) true s.
Proof.
  intros Hu. unfold login. rewrite Hu.
  destruct (validate_on_submit (site_env site)); [|reflexivity].
  destruct (json_truthy (request_json site)) eqn:Htruthy;
    form_step; rewrite ?Htruthy, ?app_nil_r; reflexivity.
Qed.

(** X17.  [login] logs the form's user in, with the form's remember flag,
    and registers a commit exactly when the form validates; otherwise the
    session, the datastore and the callbacks stay as they were.  A request
    without JSON body is answered with the post-login redirect when the form
    validates and with the template when not; a request with a JSON body is
    never redirected: a form without errors is answered with the user's id
    and authentication token. *)
Theorem login_logs_in_iff_form_validates (site : Site) (s : Stage) (u : User) :
  user (current_form site) = Some u ->
  let out := login site s in
  let form := current_form site in
  (validate_on_submit (site_env site) = true ->
   logged_in out.2 = Some (id u)
   /\ registered out.2 = (registered s ++ [_commit])%list
   /\ store out.2 = store s
   /\ LoginUserRemember (id u) (remember form) ∈ notes out.2)
  /\ (validate_on_submit (site_env site) = false ->
      logged_in out.2 = logged_in s /\ registered out.2 = registered s
      /\ store out.2 = store s)
  /\ (json_truthy (request_json site) = false ->
      out.1
      = Ok (Page (if validate_on_submit (site_env site)
                  then redirect
                         (plain (get_post_login_redirect (site_env site)))
                  else render_template (current_template (site_env site)))))
  /\ (json_truthy (request_json site) = true ->
      out.1 = match errors form with
              | [] => Ok (Jsonify (user_document site u true))
              | _ :: _ => Ok (Jsonify (errors_document form))
              end).
Proof.
  intros Hu out form. subst out form. rewrite (login_run site s u Hu).
  split; [|split; [|split]].
  - intros ->. destruct (json_truthy (request_json site)).
    + rewrite render_json_run. cbn. repeat split.
      rewrite <- app_assoc. apply elem_of_app. right.
      apply elem_of_app. left. apply list_elem_of_singleton. reflexivity.
    + cbn. repeat split. apply elem_of_app. right.
      apply list_elem_of_singleton. reflexivity.
  - intros ->. rewrite json_or_template_state. repeat split.
  - intros Hfalsy. rewrite json_or_template_run, Hfalsy.
    destruct (validate_on_submit (site_env site)); reflexivity.
  - intros Htruthy. rewrite json_or_template_run, Htruthy.
    destruct (validate_on_submit (site_env site)); cbv zeta;
      rewrite render_json_run, Hu; cbn;
      destruct (errors (current_form site)); reflexivity.
Qed.

Lemma login_logs_in_iff_form_validates_witness :
  logged_in (login (site (submitted_env 4) alice_form None true)
               (stage None)).2
  = Some 1%nat.
Proof.
  pose proof (login_logs_in_iff_form_validates
                (site (submitted_env 4) alice_form None true) (stage None)
                alice eq_refl) as H.
  cbv zeta in H. destruct H as (H & _).
  destruct (H eq_refl) as (Hsession & _). exact Hsession.
Defined.

Lemma change_password_run (site : Site) (s : Stage) (u : User) :
  current_user_of s = Some u ->
  change_password site s
  = let form := current_form site in
    let e := site_env site in
    if validate_on_submit e then
      let s1 := {| store := store s; logged_in := logged_in s;
                   notes := (notes s
                               ++ [ChangeUserPassword (id u)
                                     (new_password form)])%list;
                   registered := (registered s ++ [_commit])%list |} in
      if json_is_none (request_json site) then
        (match or_opt (get_url e (post_change_view site))
                      (get_url e (post_login_view e)) with
         | Some target => Ok (Page (redirect (plain target)))
         | None => Exc TypeError
         end,
         noted s1 [Did (FlashNext "PASSWORD_CHANGE" [])])
      else if json_truthy (request_json site)
      then _render_json site (set_user form (Some u)) false s1
      else (Ok (Page (render_template (current_template e))), s1)
    else if json_truthy (request_json site)
    then _render_json site (set_user form (Some u)) false s
    else (Ok (Page (render_template (current_template e))), s).
Proof.
  intros Hu. unfold change_password. cbv zeta.
  unfold current_user_of in Hu. unfold redirect_to, noted.
  destruct (validate_on_submit (site_env site));
    destruct (json_is_none (request_json site)) eqn:Hnone;
    destruct (json_truthy (request_json site)) eqn:Htruthy;
    try destruct (or_opt (get_url (site_env site) (post_change_view site))
                   (get_url (site_env site)
                      (post_login_view (site_env site))));
    do 3 (form_step; unfold current_user_of; cbn; rewrite ?Hu);
    rewrite ?app_nil_r; reflexivity.
Qed.

(** A membership in a list of notes that none of its members matches. *)
Ltac no_such_note H :=
  exfalso;
  repeat (apply elem_of_cons in H as [H|H]; [discriminate H|]);
  apply elem_of_nil in H; exact H.

Lemma change_password_state (site : Site) (s : Stage) (u : User) :
  current_user_of s = Some u ->
  let out := change_password site s in
  let form := current_form site in
  let printed := if json_truthy (request_json site)
                 then [Print (set_user form (Some u))] else [] in
  notes out.2
  = (notes s
       ++ if validate_on_submit (site_env site) then
            ChangeUserPassword (id u) (new_password form)
              :: (if json_is_none (request_json site)
                  then [Did (FlashNext "PASSWORD_CHANGE" [])]
                  else printed)
          else printed)%list
  /\ registered out.2
     = (registered s
          ++ if validate_on_submit (site_env site) then [_commit] else [])%list
  /\ store out.2 = store s
  /\ logged_in out.2 = logged_in s.
Proof.
  intros Hu out form printed. subst out form printed.
  rewrite (change_password_run site s u Hu). cbv zeta.
  destruct (validate_on_submit (site_env site));
    destruct (json_is_none (request_json site));
    destruct (json_truthy (request_json site));
    rewrite ?render_json_run; unfold noted; cbn;
    rewrite <- ?app_assoc, ?app_nil_r; repeat split.
Qed.

(** X18.  [change_password] changes a password exactly when the form
    validates: then it is the password of the session's user that is set to
    the form's new password, and one commit is registered.  The view never
    touches the session or the datastore itself, and it flashes the notice
    of the change only to a request without JSON body. *)
Theorem password_changes_iff_form_validates (site : Site) (s : Stage)
    (u : User) :
  current_user_of s = Some u ->
  notes s = [] ->
  let out := change_password site s in
  let form := current_form site in
  ((exists uid data, ChangeUserPassword uid data ∈ notes out.2)
   <-> validate_on_submit (site_env site) = true)
  /\ (validate_on_submit (site_env site) = true ->
      ChangeUserPassword (id u) (new_password form) ∈ notes out.2
      /\ registered out.2 = (registered s ++ [_commit])%list)
  /\ (validate_on_submit (site_env site) = false ->
      registered out.2 = registered s)
  /\ store out.2 = store s
  /\ logged_in out.2 = logged_in s
  /\ (Did (FlashNext "PASSWORD_CHANGE" []) ∈ notes out.2
      <-> validate_on_submit (site_env site) = true
          /\ json_is_none (request_json site) = true).
Proof.
  intros Hu Hfresh out form. subst out form.
  destruct (change_password_state site s u Hu)
    as (Hnotes & Hregistered & Hstore & Hsession).
  rewrite Hnotes, Hregistered, Hfresh. cbn [app].
  split; [|split; [|split; [|split; [exact Hstore|split; [exact Hsession|]]]]].
  - destruct (validate_on_submit (site_env site)).
    + split; [done|]. intros _. eexists _, _.
      apply elem_of_cons. left. reflexivity.
    + split; [|discriminate]. intros (uid & data & Hin).
      destruct (json_truthy (request_json site)); no_such_note Hin.
  - intros ->. split; [|reflexivity]. apply elem_of_cons. left. reflexivity.
  - intros ->. apply app_nil_r.
  - destruct (validate_on_submit (site_env site)).
    + destruct (json_is_none (request_json site)).
      * split; [done|]. intros _. apply elem_of_cons. right.
        apply elem_of_cons. left. reflexivity.
      * split; [|intros [_ Hd]; discriminate Hd]. intros Hin.
        destruct (json_truthy (request_json site)); no_such_note Hin.
    + split; [|intros [Hd _]; discriminate Hd]. intros Hin.
      destruct (json_truthy (request_json site)); no_such_note Hin.
Qed.

Lemma password_changes_iff_form_validates_witness :
  ChangeUserPassword 1 "looking-glass"
  ∈ notes (change_password (site (submitted_env 4) alice_form None true)
             (stage (Some 1%nat))).2.
Proof.
  pose proof (password_changes_iff_form_validates
                (site (submitted_env 4) alice_form None true)
                (stage (Some 1%nat)) alice) as H.
  cbv zeta in H.
  destruct H as (_ & H & _); [vm_compute; reflexivity|reflexivity|].
  destruct (H eq_refl) as [Hin _]. exact Hin.
Defined.

Lemma register_run (site : Site) (s : Stage) :
  register site s
  = let form := current_form site in
    if validate_on_submit (site_env site) then
      match register_user site (to_dict form) s with
      | (Ok created, s1) =>
          let s2 :=
            if negb (confirmable site) || login_without_confirmation site
            then {| store := store s1; logged_in := Some (id created);
                    notes := (notes s1
                                ++ [Did (LoginUser (id created))])%list;
                    registered := (registered s1 ++ [_commit])%list |}
            else s1 in
          if json_truthy (request_json site)
          then _render_json site (set_user form (Some created)) false s2
          else (Ok (Page (redirect
                            (plain (get_post_register_redirect site)))), s2)
      | (Exc e, s1) => (Exc e, s1)
      end
    else json_or_template site form false s.
Proof.
  unfold register. cbv zeta.
  destruct (validate_on_submit (site_env site)); [|reflexivity].
  unfold mbind, eff_bind, bind at 1. unfold mbind, eff_bind, bind at 1.
  destruct (register_user site (to_dict (current_form site)) s)
    as [[created|e] s1]; [|reflexivity].
  destruct (negb (confirmable site) || login_without_confirmation site);
    destruct (json_truthy (request_json site)) eqn:Htruthy;
    form_step; rewrite ?Htruthy, ?app_nil_r; try reflexivity;
    destruct s1; reflexivity.
Qed.

(** X19.  [register] calls [register_user] only for a form that validates,
    and an exception of [register_user] leaves the view.  The user it
    returns is logged in, and a commit registered, exactly when no
    confirmation is required first (the site is not confirmable, or allows
    login without confirmation); a JSON request is then answered with the id
    of the new user and never with an authentication token, any other
    request with the post-register redirect. *)
Theorem registration_logs_in_unless_confirmation_is_required (site : Site)
    (s : Stage) :
  let out := register site s in
  let form := current_form site in
  let direct := negb (confirmable site) || login_without_confirmation site in
  (validate_on_submit (site_env site) = false ->
   out = json_or_template site form false s)
  /\ (validate_on_submit (site_env site) = true ->
      forall e s1,
        register_user site (to_dict form) s = (Exc e, s1) ->
        out = (Exc e, s1))
  /\ (validate_on_submit (site_env site) = true ->
      forall created s1,
        register_user site (to_dict form) s = (Ok created, s1) ->
        store out.2 = store s1
        /\ logged_in out.2
           = (if direct then Some (id created) else logged_in s1)
        /\ registered out.2
           = (registered s1 ++ if direct then [_commit] else [])%list
        /\ (json_truthy (request_json site) = false ->
            out.1 = Ok (Page (redirect
                                (plain (get_post_register_redirect site)))))
        /\ (json_truthy (request_json site) = true ->
            errors form = [] ->
            out.1 = Ok (Jsonify (user_document site created false)))).
Proof.
  intros out form direct. subst out form direct. rewrite register_run.
  cbv zeta. split; [|split].
  - intros ->. reflexivity.
  - intros -> e s1 ->. reflexivity.
  - intros -> created s1 ->.
    destruct (negb (confirmable site) || login_without_confirmation site);
      destruct (json_truthy (request_json site));
      rewrite ?render_json_run; cbn; rewrite ?app_nil_r;
      (repeat split; try discriminate); intros _ ->; reflexivity.
Qed.

Lemma registration_logs_in_unless_confirmation_is_required_witness :
  logged_in (register (site (submitted_env 4) alice_form None false)
               (stage None)).2
  = Some 3%nat.
Proof.
  pose proof (registration_logs_in_unless_confirmation_is_required
                (site (submitted_env 4) alice_form None false) (stage None))
    as H.
  cbv zeta in H. destruct H as (_ & _ & H).
  destruct (H eq_refl carol _ eq_refl) as (_ & Hsession & _).
  exact Hsession.
Defined.

End FormViewFacts.

(** ** Properties of the blueprint *)

Module BlueprintFacts.
Import Blueprints.

(** Case analysis on the five feature flags of a state. *)
Ltac by_flags state :=
  destruct state as [? ? ? ? ? ? ? ? ? [|] [|] [|] [|] [|]].

(** X20.  Whatever features are switched on, [create_blueprint] registers
    no endpoint twice and binds no view function twice. *)
Theorem endpoints_are_distinct (state : State) (import : string) :
  NoDup (endpoint <$> routes (create_blueprint state import))
  /\ NoDup (view_func <$> routes (create_blueprint state import)).
Proof.
  by_flags state; split; apply (bool_decide_unpack _); vm_compute; exact I.
Qed.

(** X21.  A view function is routed exactly when its feature is switched
    on.  The [logout] and [login] endpoints are always there; the [login]
    endpoint is bound to [passwordless_login] when passwordless login is on
    and to [login] otherwise, never to both. *)
Theorem views_are_routed_iff_enabled (state : State) (import : string) :
  let bp := create_blueprint state import in
  (forall v, v ∈ view_func <$> routes bp <-> enabled state v = true)
  /\ (exists r, r ∈ routes bp /\ endpoint r = "logout"
                /\ rule r = logout_url state /\ view_func r = logout)
  /\ (exists r, r ∈ routes bp /\ endpoint r = "login"
                /\ rule r = login_url state
                /\ view_func r = if passwordlessable state
                                 then passwordless_login else login).
Proof.
  intros bp. subst bp. split; [|split].
  - intros v.
    assert (Hdecide : bool_decide
                        (v ∈ view_func <$> routes (create_blueprint state import))
                      = enabled state v)
      by (by_flags state; destruct v; vm_compute; reflexivity).
    rewrite <- Hdecide. split.
    + apply bool_decide_eq_true_2.
    + apply bool_decide_eq_true_1.
  - by_flags state; cbn; eexists;
      (split; [apply elem_of_cons; left; reflexivity|repeat split]).
  - by_flags state; cbn; eexists;
      (split; [apply elem_of_cons; right; apply elem_of_cons; left;
               reflexivity|repeat split]).
Qed.

(** Find a route in a concrete list of routes. *)
Ltac find_route :=
  apply list_elem_of_here + (apply list_elem_of_further; find_route).

(** Settle the statement about one concrete route. *)
Ltac token_route :=
  let Hv := fresh "Hv" in
  intros Hv; first [discriminate Hv | split; [reflexivity | find_route]].

Ltac route_case :=
  cbn; split; [token_route|]; split; [token_route|]; split; [token_route|];
  split;
  [ split;
    [ intros Hm;
      first [discriminate Hm | (left; reflexivity) | (right; reflexivity)]
    | intros [Hv|Hv]; first [discriminate Hv | reflexivity] ]
  | intros Hm; first [reflexivity | (exfalso; apply Hm; reflexivity)] ].

(** X22.  The rule of each token view is the rule of the form view of the
    same feature followed by [/<token>], and that form view is routed too,
    at the plain rule, for GET and POST and under its own endpoint:
    [passwordless_login] for [token_login], [forgot_password] for
    [reset_password], [send_confirmation] for [confirm_email].  Every route
    is registered for GET and POST, except those of [logout] and
    [token_login], which give no methods. *)
Theorem token_routes_extend_their_form_route (state : State)
    (import : string) (r : Route) :
  r ∈ routes (create_blueprint state import) ->
  (view_func r = token_login ->
   rule r = login_url state ++ "/<token>"
   /\ {| rule := login_url state; methods := get_post;
         endpoint := "login"; view_func := passwordless_login |}
      ∈ routes (create_blueprint state import))
  /\ (view_func r = reset_password ->
      rule r = reset_url state ++ "/<token>"
      /\ {| rule := reset_url state; methods := get_post;
            endpoint := "forgot_password"; view_func := forgot_password |}
         ∈ routes (create_blueprint state import))
  /\ (view_func r = confirm_email ->
      rule r = confirm_url state ++ "/<token>"
      /\ {| rule := confirm_url state; methods := get_post;
            endpoint := "send_confirmation"; view_func := send_confirmation |}
         ∈ routes (create_blueprint state import))
  /\ (methods r = None
      <-> view_func r = logout \/ view_func r = token_login)
  /\ (methods r <> None -> methods r = get_post).
Proof.
  intros Hin.
  by_flags state; cbn in Hin;
    repeat (apply elem_of_cons in Hin as [->|Hin]);
    try (apply elem_of_nil in Hin; destruct Hin);
    route_case.
Qed.

Lemma token_routes_extend_their_form_route_witness :
  {| rule := "/reset"; methods := get_post;
     endpoint := "forgot_password"; view_func := forgot_password |}
  ∈ routes (create_blueprint FormExamples.all_features "flask_security").
Proof.
  pose proof (token_routes_extend_their_form_route
                FormExamples.all_features "flask_security"
                {| rule := "/reset/<token>"; methods := get_post;
                   endpoint := "reset_password";
                   view_func := reset_password |}) as H.
  destruct H as (_ & H & _).
  - vm_compute. find_route.
  - destruct (H eq_refl) as [_ Hrouted]. exact Hrouted.
Defined.

End BlueprintFacts.
